(** * davidsbond/plugin: a shallow embedding of the plugin host and server

    The development follows the layout of the Go repository:

    - the Go runtime values the code manipulates ([error] values, gRPC
      status codes, [errors.Join], [errors.Is], [status.FromError]);
    - the typed envelope ([anypb.Any]) as an interface of the external
      protobuf library;
    - [plugin.go]: [Command.Execute], the registry construction of
      [startPlugin], [Use], [Plugin.Close] and [Plugin.Exec];
    - [internal/plugin/api.go]: [API.Stat] and [API.Execute];
    - [internal/plugin/client.go]: [Client.Stat], [Client.Execute].

    State is passed explicitly: handlers are closures over the plugin
    author's state, and everything outside the host process (subprocess,
    socket, gRPC connection) is an abstract world whose calls are logged. *)

From Stdlib Require Import String Ascii List ZArith Lia Eqdep_dec.
From stdpp Require Import base option list strings gmap.

Set Default Proof Using "Type".
Set Warnings "-register-all".
Open Scope string_scope.
Open Scope list_scope.

(** ** Go strings *)

(** The double quote character, built from its code. *)
Definition dquote : string := String (ascii_of_nat 34) EmptyString.

(** [strings.Join(elems, sep)]. *)
Fixpoint strings_Join (elems : list string) (sep : string) : string :=
  match elems with
  | [] => EmptyString
  | [x] => x
  | x :: rest => x +:+ sep +:+ strings_Join rest sep
  end.

(** The line feed separating the messages of a joined error. *)
Definition newline : string := String (ascii_of_nat 10) EmptyString.

(** ** gRPC status codes ([google.golang.org/grpc/codes]) *)

Module codes.

Inductive Code : Set :=
| OK | Canceled | Unknown | InvalidArgument | DeadlineExceeded | NotFound
| AlreadyExists | PermissionDenied | ResourceExhausted | FailedPrecondition
| Aborted | OutOfRange | Unimplemented | Internal | Unavailable | DataLoss
| Unauthenticated.

#[export] Instance Code_eq_dec : EqDecision Code.
Proof. solve_decision. Defined.

(** [Code.String]. *)
Definition Code_String (c : Code) : string :=
  match c with
  | OK => "OK" | Canceled => "Canceled" | Unknown => "Unknown"
  | InvalidArgument => "InvalidArgument"
  | DeadlineExceeded => "DeadlineExceeded" | NotFound => "NotFound"
  | AlreadyExists => "AlreadyExists"
  | PermissionDenied => "PermissionDenied"
  | ResourceExhausted => "ResourceExhausted"
  | FailedPrecondition => "FailedPrecondition" | Aborted => "Aborted"
  | OutOfRange => "OutOfRange" | Unimplemented => "Unimplemented"
  | Internal => "Internal" | Unavailable => "Unavailable"
  | DataLoss => "DataLoss" | Unauthenticated => "Unauthenticated"
  end.

End codes.
Export codes.

(** ** Go error values *)

(** The two package-level error variables of [plugin.go]. Go compares
    them by pointer identity, so each is a value of its own, distinct from
    every error made later by [errors.New] with the same text. *)
Inductive sentinel : Set :=
| ErrUnexpectedName
| ErrUnknownCommand.

#[export] Instance sentinel_eq_dec : EqDecision sentinel.
Proof. solve_decision. Defined.

(** The dynamic shapes of [error] the code builds or inspects. *)
Inductive error : Type :=
| errorString (s : string)
    (* a fresh errors.New(s), also fmt.Errorf without the wrapping verb *)
| sentinelError (v : sentinel)
    (* one of the package-level variables above *)
| wrapError (msg : string) (err : error)
    (* fmt.Errorf with one wrapping verb: the formatted text and the operand *)
| joinError (errs : list error)
    (* errors.Join: the non-nil operands, in order *)
| statusError (c : Code) (msg : string)
    (* a gRPC status error: status.Error(c, msg) *)
| opaqueError (kind : string) (text : string).
    (* any other error type (io.EOF, an os error, a handler's own type):
       its type name and its Error() text *)

Module errors.

Definition sentinel_text (v : sentinel) : string :=
  match v with
  | ErrUnexpectedName => "unexpected plugin name"
  | ErrUnknownCommand => "unknown command"
  end.

(** The method [Error() string] of each shape. *)
Fixpoint Error (e : error) : string :=
  match e with
  | errorString s => s
  | sentinelError v => sentinel_text v
  | wrapError msg _ => msg
  | joinError errs => strings_Join (List.map Error errs) newline
  | statusError c msg =>
      "rpc error: code = " +:+ Code_String c +:+ " desc = " +:+ msg
  | opaqueError _ text => text
  end.

(** [errors.Join(errs...)]: nil operands are dropped, and the result is nil
    when none is left. *)
Definition Join (errs : list (option error)) : option error :=
  match omap id errs with
  | [] => None
  | es => Some (joinError es)
  end.

(** [errors.Is(err, target)] for a target that is one of the package's
    variables: the Unwrap tree of [err] is searched depth first. *)
Fixpoint Is (e : error) (target : sentinel) : bool :=
  match e with
  | sentinelError v => bool_decide (v = target)
  | wrapError _ inner => Is inner target
  | joinError errs => existsb (fun x => Is x target) errs
  | errorString _ | statusError _ _ | opaqueError _ _ => false
  end.

(** [occurs e err]: the error value [e] is [err] itself or is reachable from
    it through Unwrap, that is, [err] still carries [e]. *)
Fixpoint occurs (e : error) (err : error) {struct err} : Prop :=
  e = err \/
  match err with
  | wrapError _ inner => occurs e inner
  | joinError errs =>
      (fix any (l : list error) : Prop :=
         match l with
         | [] => False
         | x :: rest => occurs e x \/ any rest
         end) errs
  | _ => False
  end.

End errors.

(** ** gRPC statuses ([google.golang.org/grpc/status]) *)

Module status.

Record Status : Type := { Code : codes.Code; Message : string }.

(** [errors.As(err, &grpcstatus)]: the first status error in the Unwrap
    tree. *)
Fixpoint wrapped (e : error) : option Status :=
  match e with
  | statusError c msg => Some {| Code := c; Message := msg |}
  | wrapError _ inner => wrapped inner
  | joinError errs =>
      (fix first (l : list error) : option Status :=
         match l with
         | [] => None
         | x :: rest =>
             match wrapped x with
             | Some s => Some s
             | None => first rest
             end
         end) errs
  | errorString _ | sentinelError _ | opaqueError _ _ => None
  end.

(** [status.FromError(err)]: the status and whether [err] carried one. *)
Definition FromError (err : option error) : option Status * bool :=
  match err with
  | None => (None, true)
  | Some (statusError c msg) => (Some {| Code := c; Message := msg |}, true)
  | Some e =>
      match wrapped e with
      | Some s => (Some {| Code := Code s; Message := errors.Error e |}, true)
      | None => (Some {| Code := Unknown; Message := errors.Error e |}, false)
      end
  end.

(** [status.Code(err)]. *)
Definition CodeOf (err : option error) : codes.Code :=
  match err with
  | None => OK
  | Some _ =>
      match fst (FromError err) with
      | Some s => Code s
      | None => OK
      end
  end.

(** [status.Error(c, msg)] for a code other than [OK] (the three calls of
    [API.Execute] pass constants that are not [OK], for which [Err()] is
    never nil). *)
Definition Error (c : codes.Code) (msg : string) : error := statusError c msg.

End status.

(** ** Results and effects *)

(** A Go result pair [(value, error)]: the callers below test the error
    first and read the value only when it is nil. *)
Inductive result (A : Type) : Type :=
| Ok (a : A)
| Err (e : error).
Arguments Ok {A} a.
Arguments Err {A} e.

(** Code that threads a state and returns early on the first error
    ([if err != nil { return nil, err }]). *)
Definition Go (St A : Type) : Type := St -> result A * St.

#[export] Instance Go_ret {St} : MRet (Go St) :=
  fun A (a : A) st => (Ok a, st).

#[export] Instance Go_bind {St} : MBind (Go St) :=
  fun A B (k : A -> Go St B) (m : Go St A) st =>
    match m st with
    | (Ok a, st') => k a st'
    | (Err e, st') => (Err e, st')
    end.

(** A call that touches no state. *)
Definition pure_result {St A} (r : result A) : Go St A := fun st => (r, st).

(** ** What the code takes from the Go libraries *)

(** [strconv.Quote], the rendering of the [%q] verb of [fmt]. *)
Class Fmt : Type := { strconv_Quote : string -> string }.

(** [anypb.Any]: a type URL and the encoded message. *)
Record Any : Type := { TypeUrl : string; Value : list Byte.byte }.

(** The protobuf library: the generated message types, their values, and
    the three envelope operations the repository calls. A nil [*anypb.Any]
    is [None]. [Any_UnmarshalTo src t dst] gives the error and the content of
    the destination after the call. *)
Class Protobuf : Type := {
  MessageType : Type;
  MessageType_eq_dec :: EqDecision MessageType;
  Body : MessageType -> Type;
  anypb_New : {t : MessageType & Body t} -> result Any;
  Any_UnmarshalNew : option Any -> result {t : MessageType & Body t};
  Any_UnmarshalTo :
    option Any -> forall t : MessageType, Body t -> option error * Body t
}.

(** A [proto.Message] interface value: a dynamic type and a value of it. *)
Definition Message `{Protobuf} : Type := {t : MessageType & Body t}.

Definition message `{Protobuf} {t : MessageType} (v : Body t) : Message :=
  existT t v.

(** The type assertion [m.(Input)] for a concrete message type [Input]. *)
Definition type_assert `{Protobuf} (Input : MessageType) (m : Message)
  : option (Body Input) :=
  match decide (projT1 m = Input) with
  | left e => Some (eq_rect (projT1 m) Body (projT2 m) Input e)
  | right _ => None
  end.

(** [fmt.Errorf] with a format that has no wrapping verb. *)
Definition fmt_Errorf (text : string) : error := errorString text.

(** ** plugin.go: commands *)

(** The execution function stored in the registry. The state [S] is what
    the plugin author's closures capture. *)
Definition Handler (S : Type) : Type :=
  option Any -> Go S (option Any).

(** The interface [CommandHandler]. *)
Module CommandHandler.
Record t (S : Type) : Type := { Name : string; Execute : Handler S }.
Arguments Name {S} _.
Arguments Execute {S} _.
End CommandHandler.

Module Command.
Section Command.
Context `{Fmt} `{Protobuf} {S : Type}.

(** [Command[Input, Output]]. *)
Record t (Input Output : MessageType) : Type := {
  Use : string;
  Run : Body Input -> Go S (Body Output)
}.
#[global] Arguments Use {Input Output} _.
#[global] Arguments Run {Input Output} _.

Context {Input Output : MessageType}.

Definition Name (ch : t Input Output) : string := Use ch.

Definition Execute (ch : t Input Output) : Handler S := fun input =>
  msg ← pure_result (Any_UnmarshalNew input);
  in_ ← pure_result
          match type_assert Input msg with
          | Some v => Ok v
          | None =>
              Err (fmt_Errorf ("invalid input type for command "
                               +:+ strconv_Quote (Use ch)))
          end;
  output ← Run ch in_;
  out ← pure_result (anypb_New (message output));
  mret (Some out).

(** A [Command] used as a [CommandHandler]. *)
Definition handler (ch : t Input Output) : CommandHandler.t S :=
  {| CommandHandler.Name := Name ch; CommandHandler.Execute := Execute ch |}.

End Command.
End Command.

(** ** internal/plugin/api.go *)

Module Info.
Record t : Type := {
  Name : string;
  Version : string;
  Commands : list string
}.
End Info.

(** The generated wire messages. *)
Module pb.
Record StatResponse : Type := {
  Name : string;
  Version : string;
  Commands : list string
}.
Record ExecuteRequest : Type := { GetName : string; GetInput : option Any }.
Record ExecuteResponse : Type := { Output : option Any }.
End pb.

Module API.
Section API.
Context `{Fmt} {S : Type}.

Record t : Type := {
  info : Info.t;
  handlers : gmap string (Handler S)
}.

Definition NewAPI (i : Info.t) (hs : gmap string (Handler S)) : t :=
  {| info := i; handlers := hs |}.

(** The methods have a pointer receiver: each returns, with its result,
    the receiver as it is after the call. *)
Definition Stat (api : t) : result pb.StatResponse * t :=
  (Ok {| pb.Name := Info.Name (info api);
         pb.Version := Info.Version (info api);
         pb.Commands := Info.Commands (info api) |}, api).

Definition Execute (api : t) (request : pb.ExecuteRequest) (s : S)
  : result pb.ExecuteResponse * t * S :=
  if decide (pb.GetName request = EmptyString) then
    (Err (status.Error InvalidArgument "missing command name"), api, s)
  else
    match handlers api !! pb.GetName request with
    | None =>
        (Err (status.Error NotFound
                ("unknown command " +:+ strconv_Quote (pb.GetName request))),
         api, s)
    | Some handler =>
        match handler (pb.GetInput request) s with
        | (Err err, s') =>
            (Err (status.Error Internal (errors.Error err)), api, s')
        | (Ok output, s') => (Ok {| pb.Output := output |}, api, s')
        end
    end.

End API.
#[global] Arguments t S : clear implicits.
End API.

(** ** plugin.go: building the server state *)

Module Config.
(** [Config]; the gRPC server options take no part in what follows. *)
Record t (S : Type) : Type := {
  Name : string;
  Commands : list (CommandHandler.t S)
}.
Arguments Name {S} _.
Arguments Commands {S} _.
End Config.

Section startPlugin.
Context {S : Type}.

(** One turn of the loop over [config.Commands]. *)
Definition register (acc : gmap string (Handler S) * Info.t)
    (command : CommandHandler.t S) : gmap string (Handler S) * Info.t :=
  (<[CommandHandler.Name command := CommandHandler.Execute command]> (fst acc),
   {| Info.Name := Info.Name (snd acc);
      Info.Version := Info.Version (snd acc);
      Info.Commands :=
        Info.Commands (snd acc) ++ [CommandHandler.Name command] |}).

(** [startPlugin] up to the call of [NewAPI]: the value the gRPC server is
    given. Listening on the socket and serving come after it. *)
Definition startPlugin (config : Config.t S) (version : string) : API.t S :=
  let info := {| Info.Name := Config.Name config;
                 Info.Version := version;
                 Info.Commands := [] |} in
  let built := foldl register (∅, info) (Config.Commands config) in
  API.NewAPI (snd built) (fst built).

(** The descriptors named [n], in configuration order. *)
Definition named (n : string) (cmds : list (CommandHandler.t S))
  : list (CommandHandler.t S) :=
  filter (fun c => CommandHandler.Name c = n) cmds.

End startPlugin.

(** The address [startPlugin] listens on, for the socket identifier [id]
    it is given as its argument. *)
Definition startPlugin_socket (id : string) : string :=
  "/tmp/" +:+ id +:+ ".sock".

(** ** The standard library calls of the host *)

Module filepath.

Definition IsPathSeparator (c : ascii) : bool :=
  bool_decide (c = ascii_of_nat 47).

Fixpoint drop_separators (l : list ascii) : list ascii :=
  match l with
  | c :: rest => if IsPathSeparator c then drop_separators rest else l
  | [] => []
  end.

Fixpoint up_to_separator (l : list ascii) : list ascii :=
  match l with
  | c :: rest => if IsPathSeparator c then [] else c :: up_to_separator rest
  | [] => []
  end.

(** [filepath.Base] on a system whose separator is the slash: trailing
    separators are dropped and the last element is returned. *)
Definition Base (path : string) : string :=
  if decide (path = EmptyString) then "."
  else
    let stripped := drop_separators (rev (list_ascii_of_string path)) in
    match up_to_separator stripped with
    | [] => "/"
    | element => string_of_list_ascii (rev element)
    end.

End filepath.

Module os.
Record Process : Type := { Pid : Z }.
End os.

Module syscall.
Inductive Signal : Set := SIGINT | SIGTERM | SIGKILL.
End syscall.

Module exec.
(** [exec.Cmd]: [Process] is nil until [Start] has succeeded. *)
Record Cmd : Type := {
  Path : string;
  Args : list string;
  Process : option os.Process
}.
End exec.

Module grpc.
Record ClientConn : Type := { Target : string }.
End grpc.

(** Everything outside the host process: the operating system, the clock,
    the subprocess and the gRPC channel to it. Each call may change the
    world [W] and gives what the Go call returns. *)
Class World (W : Type) : Type := {
  xid_New : W -> string * W;
  Cmd_Start : string -> list string -> W -> result os.Process * W;
  Process_Signal : os.Process -> syscall.Signal -> W -> option error * W;
  Ticker_wait : W -> W;
  grpc_NewClient : string -> W -> result grpc.ClientConn * W;
  ClientConn_Close : grpc.ClientConn -> W -> option error * W;
  Invoke_Stat : grpc.ClientConn -> W -> result pb.StatResponse * W;
  Invoke_Execute :
    grpc.ClientConn -> pb.ExecuteRequest -> W ->
    result pb.ExecuteResponse * W
}.

(** The calls the host makes on the world, and the log kept of them. *)
Inductive call : Type :=
| CallStart (path : string) (args : list string)
| CallDial (target : string)
| CallWait
| CallStat
| CallExecute (name : string)
| CallConnClose (target : string)
| CallSignal (pid : Z) (sig : syscall.Signal).

Record event : Type := { what : call; failed : option error }.

Record host (W : Type) : Type := { log : list event; world : W }.
Arguments log {W} _.
Arguments world {W} _.

(** A host computation returns or panics (a nil pointer dereference). *)
Inductive outcome (A : Type) : Type :=
| Returns (a : A)
| Panics.
Arguments Returns {A} a.
Arguments Panics {A}.

Definition Host (W A : Type) : Type := host W -> outcome A * host W.

#[export] Instance Host_ret {W} : MRet (Host W) :=
  fun A (a : A) h => (Returns a, h).

#[export] Instance Host_bind {W} : MBind (Host W) :=
  fun A B (k : A -> Host W B) (m : Host W A) h =>
    match m h with
    | (Returns a, h') => k a h'
    | (Panics, h') => (Panics, h')
    end.

Definition error_of {A} (r : result A) : option error :=
  match r with Ok _ => None | Err e => Some e end.

(** Make the call [c] on the world and log it with its error. *)
Definition perform {W A} (c : call) (err : A -> option error)
    (f : W -> A * W) : Host W A := fun h =>
  let r := f (world h) in
  (Returns (fst r),
   {| log := log h ++ [{| what := c; failed := err (fst r) |}];
      world := snd r |}).

(** Dereference a pointer. *)
Definition deref {W A} (p : option A) : Host W A := fun h =>
  match p with
  | Some a => (Returns a, h)
  | None => (Panics, h)
  end.

(** ** internal/plugin/client.go *)

Module Client.
Section Client.
Context `{Protobuf} {W : Type} `{!World W}.

(** [Client]: the connection; [inner] is the generated stub over it. *)
Record t : Type := { conn : grpc.ClientConn }.

Definition NewClient (socket : string) : Host W (result t) :=
  let target := "unix:///tmp/" +:+ socket +:+ ".sock" in
  r ← perform (CallDial target) error_of (grpc_NewClient target);
  match r with
  | Err err => mret (Err err)
  | Ok c => mret (Ok {| conn := c |})
  end.

Definition Close (c : t) : Host W (option error) :=
  perform (CallConnClose (grpc.Target (conn c))) id (ClientConn_Close (conn c)).

Definition Stat (c : t) : Host W (result Info.t) :=
  r ← perform CallStat error_of (Invoke_Stat (conn c));
  match r with
  | Err err => mret (Err err)
  | Ok response =>
      mret (Ok {| Info.Name := pb.Name response;
                  Info.Version := pb.Version response;
                  Info.Commands := pb.Commands response |})
  end.

(** [Execute]: the receiver is a pointer, read only after the input has
    been wrapped. The result is the error and the content of [output]
    after the call. *)
Definition Execute (c : option t) (name : string) (input : Message)
    (T : MessageType) (output : Body T) : Host W (option error * Body T) :=
  match anypb_New input with
  | Err err => mret (Some err, output)
  | Ok i =>
      let request := {| pb.GetName := name; pb.GetInput := Some i |} in
      c ← deref c;
      r ← perform (CallExecute name) error_of (Invoke_Execute (conn c) request);
      match r with
      | Err err => mret (Some err, output)
      | Ok response => mret (Any_UnmarshalTo (pb.Output response) T output)
      end
  end.

End Client.
#[global] Arguments t : clear implicits.
End Client.

(** ** plugin.go: the handle *)

(** [fmt.Errorf] with one wrapping verb: the formatted text and the wrapped
    operand. *)
Definition fmt_Errorf_w (text : string) (wrapped : error) : error :=
  wrapError text wrapped.

Module Plugin.
Section Plugin.
Context `{Fmt} `{Protobuf} {W : Type} `{!World W}.

(** [Plugin]; its field [err] is never read or written. *)
Record t : Type := {
  command : option exec.Cmd;
  client : option Client.t;
  info : Info.t
}.

Definition Close (p : t) : Host W (option error) :=
  let err : option error := None in
  err ← match client p with
        | Some c => e ← Client.Close c; mret (errors.Join [err; e])
        | None => mret err
        end;
  cmd ← deref (command p);
  err ← match exec.Process cmd with
        | Some process =>
            e ← perform (CallSignal (os.Pid process) syscall.SIGTERM) id
                  (Process_Signal process syscall.SIGTERM);
            mret (errors.Join [err; e])
        | None => mret err
        end;
  mret err.

Definition Exec (p : t) (name : string) (input : Message)
    (T : MessageType) (output : Body T) : Host W (option error * Body T) :=
  r ← Client.Execute (client p) name input T output;
  let err := fst r in
  if decide (status.CodeOf err = NotFound) then
    mret (Some (fmt_Errorf_w
                  (errors.Error (sentinelError ErrUnknownCommand)
                   +:+ ": " +:+ strconv_Quote name)
                  (sentinelError ErrUnknownCommand)), snd r)
  else
    match err with
    | Some e =>
        match status.FromError err with
        | (Some st, true) => mret (Some (errorString (status.Message st)), snd r)
        | _ => mret (Some e, snd r)
        end
    | None => mret (None, snd r)
    end.

Definition Commands (p : t) : list string := Info.Commands (info p).
Definition Name (p : t) : string := Info.Name (info p).
Definition Version (p : t) : string := Info.Version (info p).

End Plugin.
#[global] Arguments t : clear implicits.
End Plugin.

Section Use.
Context `{Fmt} `{Protobuf} {W : Type} `{!World W}.

(** [cmd.Start()]: on success the command holds its process. *)
Definition Start (cmd : exec.Cmd) : Host W (option error * exec.Cmd) :=
  r ← perform (CallStart (exec.Path cmd) (exec.Args cmd)) error_of
        (Cmd_Start (exec.Path cmd) (exec.Args cmd));
  match r with
  | Err err => mret (Some err, cmd)
  | Ok process =>
      mret (None, {| exec.Path := exec.Path cmd;
                     exec.Args := exec.Args cmd;
                     exec.Process := Some process |})
  end.

Definition zero_Info : Info.t :=
  {| Info.Name := EmptyString; Info.Version := EmptyString;
     Info.Commands := [] |}.

(** [Use]: the returned pair is the handle pointer and the error. *)
Definition Use (path : string) : Host W (option Plugin.t * option error) :=
  socket ← (fun h => let r := xid_New (world h) in
                      (Returns (fst r), {| log := log h; world := snd r |}));
  let cmd := {| exec.Path := path; exec.Args := [path; socket];
                exec.Process := None |} in
  started ← Start cmd;
  match fst started with
  | Some err =>
      mret (None,
            Some (fmt_Errorf_w ("failed to start plugin at "
                                +:+ strconv_Quote path +:+ ": "
                                +:+ errors.Error err) err))
  | None =>
      let p := {| Plugin.command := Some (snd started);
                  Plugin.client := None;
                  Plugin.info := zero_Info |} in
      let name := filepath.Base path in
      dialled ← Client.NewClient socket;
      let p := {| Plugin.command := Plugin.command p;
                  Plugin.client :=
                    match dialled with Ok c => Some c | Err _ => None end;
                  Plugin.info := Plugin.info p |} in
      match error_of dialled with
      | Some err =>
          mret (None,
                Some (fmt_Errorf_w ("failed to dial plugin "
                                    +:+ strconv_Quote name +:+ ": "
                                    +:+ errors.Error err) err))
      | None =>
          _ ← perform CallWait (fun _ => None)
                (fun w => (tt, Ticker_wait w));
          c ← deref (Plugin.client p);
          stat ← Client.Stat c;
          match stat with
          | Err err =>
              closed ← Plugin.Close p;
              mret (None, errors.Join [closed; Some err])
          | Ok info =>
              if decide (Info.Name info ≠ name) then
                mret (None,
                      Some (fmt_Errorf_w
                              (errors.Error (sentinelError ErrUnexpectedName)
                               +:+ ": expected " +:+ strconv_Quote name
                               +:+ ", got " +:+ strconv_Quote (Info.Name info))
                              (sentinelError ErrUnexpectedName)))
              else
                mret (Some {| Plugin.command := Plugin.command p;
                              Plugin.client := Plugin.client p;
                              Plugin.info := info |}, None)
          end
      end
  end.

End Use.

Section after_Execute.
Context {W : Type} `{!World W}.

(** The host state after the Execute call of the stub. *)
Definition after_Execute (c : Client.t) (name : string) (i : Any)
    (h : host W) : host W :=
  let reply := Invoke_Execute (Client.conn c)
                 {| pb.GetName := name; pb.GetInput := Some i |} (world h) in
  {| log := log h ++ [{| what := CallExecute name;
                         failed := error_of (fst reply) |}];
     world := snd reply |}.

End after_Execute.

(** ** The server under a sequence of calls *)

Module Server.
Section Server.
Context `{Fmt} {S : Type}.

(** The two methods the gRPC server calls on the registered [API]. *)
Inductive rpc : Type :=
| Stat
| Execute (request : pb.ExecuteRequest).

Inductive reply : Type :=
| StatReply (r : result pb.StatResponse)
| ExecuteReply (r : result pb.ExecuteResponse).

Definition serve (api : API.t S) (call : rpc) (s : S)
  : reply * API.t S * S :=
  match call with
  | Stat => let r := API.Stat api in (StatReply (fst r), snd r, s)
  | Execute request =>
      let r := API.Execute api request s in
      (ExecuteReply (fst (fst r)), snd (fst r), snd r)
  end.

(** The calls are served one after the other, each on the receiver and the
    handler state the previous one left. *)
Fixpoint serve_all (api : API.t S) (calls : list rpc) (s : S)
  : list reply * API.t S * S :=
  match calls with
  | [] => ([], api, s)
  | call :: rest =>
      let r := serve api call s in
      let rs := serve_all (snd (fst r)) rest (snd r) in
      (fst (fst r) :: fst (fst rs), snd (fst rs), snd rs)
  end.

(** What the client of a gRPC call receives: the response, or the status
    made of the error the method returned. *)
Definition on_the_wire {A} (r : result A) : result A :=
  match r with
  | Ok a => Ok a
  | Err e =>
      match fst (status.FromError (Some e)) with
      | Some st => Err (statusError (status.Code st) (status.Message st))
      | None => Err e
      end
  end.

(** An Execute request delivered to the server. *)
Definition deliver (request : pb.ExecuteRequest) (server : API.t S * S)
  : result pb.ExecuteResponse * (API.t S * S) :=
  let r := API.Execute (fst server) request (snd server) in
  (on_the_wire (fst (fst r)), (snd (fst r), snd r)).

(** The channel of the host reaches the server: every Execute call of the
    stub is delivered to [API.Execute] and its reply comes back. *)
Definition connected `{!World (API.t S * S)} : Prop :=
  forall conn request server,
    Invoke_Execute conn request server = deliver request server.

End Server.
End Server.

(** A message type goes through the envelope without loss: wrapping
    succeeds, and both ways of unwrapping give the value back. *)
Definition lossless `{Protobuf} (t : MessageType) : Prop :=
  forall v : Body t,
    exists a,
      anypb_New (message v) = Ok a /\
      Any_UnmarshalNew (Some a) = Ok (message v) /\
      forall dst, Any_UnmarshalTo (Some a) t dst = (None, v).

(** ** Fixtures: concrete libraries and worlds to run the code on *)

Module fixtures.

(** [%q] on text made of printable ASCII without quotes or backslashes. *)
Definition ascii_Fmt : Fmt :=
  {| strconv_Quote := fun s => dquote +:+ s +:+ dquote |}.

(** Two of the well-known types the tests use. *)
Inductive wellknown : Set := StringValue | Duration.

#[export] Instance wellknown_eq_dec : EqDecision wellknown.
Proof. solve_decision. Defined.

Definition wellknown_Body (t : wellknown) : Type :=
  match t with StringValue => string | Duration => nat end.

Definition url (t : wellknown) : string :=
  "type.googleapis.com/" +:+
  match t with
  | StringValue => "google.protobuf.StringValue"
  | Duration => "google.protobuf.Duration"
  end.

Definition encode (t : wellknown) : wellknown_Body t -> list Byte.byte :=
  match t with
  | StringValue => list_byte_of_string
  | Duration => fun seconds => repeat Byte.x01 seconds
  end.

Definition decode (t : wellknown) : list Byte.byte -> wellknown_Body t :=
  match t with
  | StringValue => string_of_list_byte
  | Duration => fun bytes => List.length bytes
  end.

Definition resolve (u : string) : option wellknown :=
  if decide (u = url StringValue) then Some StringValue
  else if decide (u = url Duration) then Some Duration
  else None.

Definition wellknown_Protobuf : Protobuf :=
  {| MessageType := wellknown;
     Body := wellknown_Body;
     anypb_New := fun m =>
       Ok {| TypeUrl := url (projT1 m); Value := encode (projT1 m) (projT2 m) |};
     Any_UnmarshalNew := fun src =>
       match src with
       | None => Err (errorString "invalid empty type URL")
       | Some a =>
           match resolve (TypeUrl a) with
           | Some t => Ok (existT t (decode t (Value a)))
           | None => Err (errorString "message type not found")
           end
       end;
     Any_UnmarshalTo := fun src t dst =>
       match src with
       | None => (Some (errorString "invalid nil source message"), dst)
       | Some a =>
           if decide (TypeUrl a = url t) then (None, decode t (Value a))
           else (Some (errorString "mismatched message type"), dst)
       end |}.

(** A world that answers every call as scripted and never changes. *)
Record script : Type := {
  start_reply : option error;
  dial_reply : option error;
  stat_reply : result pb.StatResponse;
  execute_reply : pb.ExecuteRequest -> result pb.ExecuteResponse;
  close_reply : option error;
  signal_reply : option error
}.

Definition scripted_World : World script :=
  {| xid_New := fun w => ("d0a1b2c3", w);
     Cmd_Start := fun _ _ w =>
       (match start_reply w with
        | Some e => Err e
        | None => Ok {| os.Pid := 4242 |}
        end, w);
     Process_Signal := fun _ _ w => (signal_reply w, w);
     Ticker_wait := fun w => w;
     grpc_NewClient := fun target w =>
       (match dial_reply w with
        | Some e => Err e
        | None => Ok {| grpc.Target := target |}
        end, w);
     ClientConn_Close := fun _ w => (close_reply w, w);
     Invoke_Stat := fun _ w => (stat_reply w, w);
     Invoke_Execute := fun _ request w => (execute_reply w request, w) |}.

(** A world whose channel reaches a server held in it. *)
Definition loopback_World `{Fmt} (S : Type) : World (API.t S * S) :=
  {| xid_New := fun w => ("d0a1b2c3", w);
     Cmd_Start := fun _ _ w => (Ok {| os.Pid := 4242 |}, w);
     Process_Signal := fun _ _ w => (None, w);
     Ticker_wait := fun w => w;
     grpc_NewClient := fun target w => (Ok {| grpc.Target := target |}, w);
     ClientConn_Close := fun _ w => (None, w);
     Invoke_Stat := fun _ w =>
       (Server.on_the_wire (fst (API.Stat (fst w))), w);
     Invoke_Execute := fun _ request w => Server.deliver request w |}.

#[local] Existing Instance ascii_Fmt.
#[local] Existing Instance wellknown_Protobuf.

(** Two handlers over a plugin without state, told apart by their result. *)
Definition silent_handler : Handler unit := fun _ s => (Ok None, s).
Definition failing_handler : Handler unit :=
  fun _ s => (Err (errorString "second"), s).

Definition twice_named : Config.t unit :=
  {| Config.Name := "test_plugin";
     Config.Commands :=
       [ {| CommandHandler.Name := "test";
            CommandHandler.Execute := silent_handler |};
         {| CommandHandler.Name := "test";
            CommandHandler.Execute := failing_handler |} ] |}.

(** The handler of the test plugin, over a state that counts its calls. *)
Definition PingPong_Run (input : string) : Go nat string := fun calls =>
  (if decide (input = "ping") then Ok "pong"
   else if decide (input = "pong") then Ok "ping"
   else Err (errorString
               ("invalid input " +:+ strconv_Quote input
                +:+ ", expected " +:+ strconv_Quote "ping"
                +:+ " or " +:+ strconv_Quote "pong")),
   Datatypes.S calls).

Definition PingPong : Command.t (S := nat) StringValue StringValue :=
  @Command.Build_t wellknown_Protobuf nat StringValue StringValue
    "pingpong" PingPong_Run.

(** A command that returns its input, registered under [name]. *)
Definition Echo_Run (input : string) : Go nat string := fun calls =>
  (Ok input, Datatypes.S calls).

Definition Echo (name : string)
  : Command.t (S := nat) StringValue StringValue :=
  @Command.Build_t wellknown_Protobuf nat StringValue StringValue
    name Echo_Run.

Definition test_plugin : Config.t nat :=
  {| Config.Name := "test_plugin";
     Config.Commands := [Command.handler PingPong; Command.handler (Echo "echo")] |}.

(** A plugin whose only command has the empty name. *)
Definition nameless_plugin : Config.t nat :=
  {| Config.Name := "test_plugin";
     Config.Commands := [Command.handler (Echo EmptyString)] |}.

Definition string_message (v : string) : Message := message (t := StringValue) v.
Definition duration_message (seconds : nat) : Message :=
  message (t := Duration) seconds.

(** A handle on a plugin served through [loopback_World]. *)
Definition connected_handle : Plugin.t :=
  {| Plugin.command :=
       Some {| exec.Path := "./test_plugin";
               exec.Args := ["./test_plugin"; "d0a1b2c3"];
               exec.Process := Some {| os.Pid := 4242 |} |};
     Plugin.client :=
       Some {| Client.conn := {| grpc.Target := "unix:///tmp/d0a1b2c3.sock" |} |};
     Plugin.info := zero_Info |}.

(** Scripts for the host. *)
Definition healthy : script :=
  {| start_reply := None;
     dial_reply := None;
     stat_reply := Ok {| pb.Name := "test_plugin"; pb.Version := "v1";
                         pb.Commands := ["pingpong"] |};
     execute_reply := fun _ => Ok {| pb.Output := None |};
     close_reply := None;
     signal_reply := None |}.

(** The plugin answers every Execute call with [r]. *)
Definition replying (r : result pb.ExecuteResponse) : script :=
  {| start_reply := None;
     dial_reply := None;
     stat_reply := stat_reply healthy;
     execute_reply := fun _ => r;
     close_reply := None;
     signal_reply := None |}.

(** The binary reports the name foo. *)
Definition misnamed : script :=
  {| start_reply := None;
     dial_reply := None;
     stat_reply := Ok {| pb.Name := "foo"; pb.Version := "v1";
                         pb.Commands := [] |};
     execute_reply := execute_reply healthy;
     close_reply := None;
     signal_reply := None |}.

(** The subprocess never serves, and both steps of the cleanup fail. *)
Definition unserved : script :=
  {| start_reply := None;
     dial_reply := None;
     stat_reply := Err (statusError Unavailable "connection refused");
     execute_reply := execute_reply healthy;
     close_reply := Some (opaqueError "grpc" "the client connection is closing");
     signal_reply := Some (opaqueError "os" "process already finished") |}.

Definition start (w : script) : host script := {| log := []; world := w |}.

Definition scripted_Exec :=
  @Plugin.Exec ascii_Fmt wellknown_Protobuf script scripted_World.
Definition scripted_Use :=
  @Use ascii_Fmt script scripted_World.
Definition loopback_Exec :=
  @Plugin.Exec ascii_Fmt wellknown_Protobuf (API.t nat * nat)
    (loopback_World nat).

Definition the_client : Client.t :=
  {| Client.conn := {| grpc.Target := "unix:///tmp/d0a1b2c3.sock" |} |}.

Definition any_string (v : string) : Any :=
  {| TypeUrl := url StringValue; Value := list_byte_of_string v |}.

(** The binary cannot be started. *)
Definition unstartable : script :=
  {| start_reply := Some (opaqueError "exec" "no such file or directory");
     dial_reply := None;
     stat_reply := stat_reply healthy;
     execute_reply := execute_reply healthy;
     close_reply := None;
     signal_reply := None |}.

(** An envelope that refuses to wrap a StringValue holding the byte 255,
    which no UTF-8 text contains. *)
Definition has_invalid_byte (v : string) : bool :=
  existsb (fun c => bool_decide (c = ascii_of_nat 255))
    (list_ascii_of_string v).

Definition strict_New (m : {t : wellknown & wellknown_Body t}) : result Any :=
  match m with
  | existT StringValue v =>
      if has_invalid_byte v
      then Err (errorString "string field contains invalid UTF-8")
      else Ok (any_string v)
  | existT Duration seconds =>
      Ok {| TypeUrl := url Duration; Value := encode Duration seconds |}
  end.

Definition strict_Protobuf : Protobuf :=
  {| MessageType := wellknown;
     Body := wellknown_Body;
     anypb_New := strict_New;
     Any_UnmarshalNew := @Any_UnmarshalNew wellknown_Protobuf;
     Any_UnmarshalTo := @Any_UnmarshalTo wellknown_Protobuf |}.

Definition invalid_text : string := String (ascii_of_nat 255) EmptyString.

(** A handle whose client was never made. *)
Definition clientless_handle : Plugin.t :=
  {| Plugin.command := Plugin.command connected_handle;
     Plugin.client := None;
     Plugin.info := zero_Info |}.

(** A handler that fails with an error that is itself a NotFound status,
    and one that fails with the package's own [ErrUnknownCommand]. *)
Definition not_found_handler : Handler nat := fun _ calls =>
  (Err (statusError NotFound "no such record"), Datatypes.S calls).
Definition sentinel_handler : Handler nat := fun _ calls =>
  (Err (sentinelError ErrUnknownCommand), Datatypes.S calls).

Definition impostor_plugin : Config.t nat :=
  {| Config.Name := "test_plugin";
     Config.Commands :=
       [ {| CommandHandler.Name := "lookup";
            CommandHandler.Execute := not_found_handler |};
         {| CommandHandler.Name := "fetch";
            CommandHandler.Execute := sentinel_handler |} ] |}.

Definition loopback_Use :=
  @Use ascii_Fmt (API.t nat * nat) (loopback_World nat).
Definition loopback_Close :=
  @Plugin.Close (API.t nat * nat) (loopback_World nat).

End fixtures.

(** * Properties *)

(** ** The registry and the metadata built at startup *)

Section startPlugin_facts.
Context {S : Type}.
Implicit Types (cmds : list (CommandHandler.t S)) (n : string).

Lemma named_snoc n cmds c :
  named n (cmds ++ [c]) =
  named n cmds ++ (if decide (CommandHandler.Name c = n) then [c] else []).
Proof.
  unfold named. rewrite filter_app. reflexivity.
Qed.

(** After the loop, a name is bound to the handler of the last descriptor
    that bears it, or to what the map held before when none does. *)
Lemma foldl_register_lookup cmds acc n :
  fst (foldl register acc cmds) !! n =
  match last (named n cmds) with
  | Some c => Some (CommandHandler.Execute c)
  | None => fst acc !! n
  end.
Proof.
  induction cmds as [|c cmds IH] using rev_ind; [reflexivity|].
  rewrite foldl_snoc, named_snoc, last_app. cbn [register fst].
  destruct (decide (CommandHandler.Name c = n)) as [->|Hne]; cbn [last].
  - apply lookup_insert_eq.
  - rewrite lookup_insert_ne by exact Hne. exact IH.
Qed.

Lemma foldl_register_info cmds acc :
  let i := snd (foldl register acc cmds) in
  Info.Name i = Info.Name (snd acc) /\
  Info.Version i = Info.Version (snd acc) /\
  Info.Commands i = Info.Commands (snd acc) ++ (CommandHandler.Name <$> cmds).
Proof.
  induction cmds as [|c cmds IH] using rev_ind; cbn zeta in *.
  - cbn. rewrite app_nil_r. auto.
  - rewrite foldl_snoc. cbn [register snd Info.Name Info.Version Info.Commands].
    destruct IH as (-> & -> & ->).
    rewrite fmap_app, app_assoc. auto.
Qed.

Lemma startPlugin_lookup (config : Config.t S) version n :
  API.handlers (startPlugin config version) !! n =
  CommandHandler.Execute <$> last (named n (Config.Commands config)).
Proof.
  unfold startPlugin. cbn [API.NewAPI API.handlers].
  rewrite foldl_register_lookup. cbn [fst].
  destruct (last _); [reflexivity|]. apply lookup_empty.
Qed.

Lemma startPlugin_info (config : Config.t S) version :
  API.info (startPlugin config version) =
  {| Info.Name := Config.Name config;
     Info.Version := version;
     Info.Commands := CommandHandler.Name <$> Config.Commands config |}.
Proof.
  unfold startPlugin. cbn [API.NewAPI API.info].
  pose proof (foldl_register_info (Config.Commands config)
                (∅, {| Info.Name := Config.Name config;
                       Info.Version := version;
                       Info.Commands := [] |})) as Hi.
  cbn zeta in Hi. cbn [snd Info.Name Info.Version Info.Commands app] in Hi.
  destruct (snd (foldl register _ _)) as [nm ver cs].
  cbn in Hi. destruct Hi as (-> & -> & ->). reflexivity.
Qed.

End startPlugin_facts.

(** C8. For every configuration, the registry built by [startPlugin] holds
    at most one entry for a name, binds the name of every configured
    command to the handler of some configured command of that name, holds
    nothing else, and the command list of the reported metadata is the list
    of the descriptors' names in configuration order: its i-th entry is the
    name of the i-th descriptor. *)
Theorem startPlugin_registry_and_info
    {S : Type} (config : Config.t S) (version : string) :
  let api := startPlugin config version in
  NoDup (map_to_list (API.handlers api)).*1 /\
  (forall command,
      command ∈ Config.Commands config ->
      exists bound,
        bound ∈ Config.Commands config /\
        CommandHandler.Name bound = CommandHandler.Name command /\
        API.handlers api !! CommandHandler.Name command =
          Some (CommandHandler.Execute bound)) /\
  (forall n h,
      API.handlers api !! n = Some h ->
      exists bound,
        bound ∈ Config.Commands config /\
        CommandHandler.Name bound = n /\ h = CommandHandler.Execute bound) /\
  (forall i : nat,
      Info.Commands (API.info api) !! i =
      CommandHandler.Name <$> Config.Commands config !! i) /\
  Info.Name (API.info api) = Config.Name config /\
  Info.Version (API.info api) = version.
Proof.
  intros api. subst api. split; [apply NoDup_fst_map_to_list|].
  assert (Hbound : forall n c,
             last (named n (Config.Commands config)) = Some c ->
             c ∈ Config.Commands config /\ CommandHandler.Name c = n).
  { intros n c Hc. apply last_Some_elem_of in Hc.
    unfold named in Hc. apply list_elem_of_filter in Hc. tauto. }
  split; [|split; [|split]].
  - intros command Hin. rewrite startPlugin_lookup.
    destruct (last (named (CommandHandler.Name command)
                      (Config.Commands config))) as [c|] eqn:Hlast.
    + exists c. destruct (Hbound _ _ Hlast). auto.
    + apply last_None in Hlast.
      assert (Hc : command ∈ named (CommandHandler.Name command)
                                   (Config.Commands config)).
      { unfold named. apply list_elem_of_filter. auto. }
      rewrite Hlast in Hc. inversion Hc.
  - intros n h. rewrite startPlugin_lookup.
    destruct (last (named n (Config.Commands config))) as [c|] eqn:Hlast;
      [|discriminate].
    intros [= <-]. exists c. destruct (Hbound _ _ Hlast). auto.
  - intros i. rewrite startPlugin_info. cbn. apply list_lookup_fmap.
  - rewrite startPlugin_info. auto.
Qed.

(** C8 on the configuration of the test plugin: the name pingpong is
    bound to the handler of a configured command of that name. *)
Lemma startPlugin_registry_and_info_witness :
  exists bound,
    bound ∈ Config.Commands fixtures.test_plugin /\
    CommandHandler.Name bound = "pingpong" /\
    API.handlers (startPlugin fixtures.test_plugin "v1") !! "pingpong" =
      Some (CommandHandler.Execute bound).
Proof.
  refine (proj1 (proj2 (startPlugin_registry_and_info
                          fixtures.test_plugin "v1"))
            (Command.handler (H := fixtures.ascii_Fmt) fixtures.PingPong) _).
  apply list_elem_of_here.
Defined.

(** C10. Descriptors that share a name are not rejected: [startPlugin]
    gives a server state for every configuration, in which a name is bound
    to the handler of the last descriptor bearing it, while the reported
    command list has one entry for each descriptor. For the configuration
    [fixtures.twice_named] the list, and with it the reply of Stat, names
    the same command twice and is longer than the registry has entries. *)
Theorem startPlugin_last_write_wins :
  (forall (S : Type) (config : Config.t S) (version n : string),
      API.handlers (startPlugin config version) !! n =
      CommandHandler.Execute <$>
        last (filter (fun c => CommandHandler.Name c = n)
                (Config.Commands config))) /\
  (forall (S : Type) (config : Config.t S) (version : string),
      length (Info.Commands (API.info (startPlugin config version))) =
      length (Config.Commands config)) /\
  (let api := startPlugin fixtures.twice_named "v1" in
   API.handlers api !! "test" = Some fixtures.failing_handler /\
   fixtures.failing_handler <> fixtures.silent_handler /\
   Info.Commands (API.info api) = ["test"; "test"] /\
   fst (API.Stat api) =
     Ok {| pb.Name := "test_plugin"; pb.Version := "v1";
           pb.Commands := ["test"; "test"] |} /\
   size (API.handlers api) = 1 /\
   size (API.handlers api) < length (Info.Commands (API.info api))).
Proof.
  split; [|split].
  - intros S config version n. apply startPlugin_lookup.
  - intros S config version. rewrite startPlugin_info. cbn.
    apply length_fmap.
  - cbn zeta.
    assert (Hsize : size (API.handlers (startPlugin fixtures.twice_named "v1")) = 1).
    { unfold startPlugin. cbn.
      rewrite insert_insert_eq, insert_empty. apply map_size_singleton. }
    unfold API.Stat.
    rewrite Hsize, startPlugin_info, startPlugin_lookup. cbn.
    repeat split; try lia.
    intros Heq. apply (f_equal (fun h => fst (h None tt))) in Heq.
    discriminate Heq.
Qed.

(** ** The adapter: [Command.Execute] *)

Section Command_facts.
Context `{Fmt} `{Protobuf} {S : Type} {Input Output : MessageType}.

Lemma type_assert_message (v : Body Input) :
  type_assert Input (message v) = Some v.
Proof.
  unfold type_assert, message. cbn [projT1 projT2].
  destruct (decide (Input = Input)) as [e|ne]; [|contradiction].
  rewrite (proof_irrel e eq_refl). reflexivity.
Qed.

Lemma type_assert_other (m : Message) :
  projT1 m <> Input -> type_assert Input m = None.
Proof.
  intros Hne. unfold type_assert.
  destruct (decide (projT1 m = Input)); [contradiction|reflexivity].
Qed.

(** [Execute] on an envelope that holds a value of the input type. *)
Lemma Execute_decoded (ch : Command.t (S := S) Input Output) input v (s : S) :
  Any_UnmarshalNew input = Ok (message v) ->
  Command.Execute ch input s =
  let r := Command.Run ch v s in
  match fst r with
  | Err err => (Err err, snd r)
  | Ok output =>
      match anypb_New (message output) with
      | Ok out => (Ok (Some out), snd r)
      | Err err => (Err err, snd r)
      end
  end.
Proof.
  intros Hnew. unfold Command.Execute, mbind, Go_bind, pure_result.
  rewrite Hnew, type_assert_message. cbn zeta.
  destruct (Command.Run ch v s) as [[output|err] s']; [|reflexivity].
  cbn [fst snd]. destruct (anypb_New (message output)); reflexivity.
Qed.

End Command_facts.

(** C9. For the adapter of every handler [run] registered under [name] and
    every input envelope: when the envelope cannot be decoded, [Execute]
    returns the decoding error, and when it decodes to a message of another
    type than the declared input type, [Execute] returns an error of its
    own; in both cases the result does not depend on [run] and the handler
    state is the one before the call, so the handler was not invoked. When
    the handler is invoked and returns an error, [Execute] returns that
    very error value and the state the handler left. *)
Theorem Command_Execute_errors
    `{Fmt} `{Protobuf} {S : Type} {Input Output : MessageType}
    (name : string) (run : Body Input -> Go S (Body Output))
    (input : option Any) (s : S) :
  let ch := {| Command.Use := name; Command.Run := run |} in
  (forall err,
      Any_UnmarshalNew input = Err err ->
      Command.Execute ch input s = (Err err, s)) /\
  (forall msg,
      Any_UnmarshalNew input = Ok msg ->
      projT1 msg <> Input ->
      Command.Execute ch input s =
      (Err (errorString ("invalid input type for command "
                         +:+ strconv_Quote name)), s)) /\
  (forall v err s',
      Any_UnmarshalNew input = Ok (message v) ->
      run v s = (Err err, s') ->
      Command.Execute ch input s = (Err err, s')).
Proof.
  intros ch. split; [|split].
  - intros err Hnew. unfold Command.Execute, mbind, Go_bind, pure_result.
    rewrite Hnew. reflexivity.
  - intros msg Hnew Hne. unfold Command.Execute, mbind, Go_bind, pure_result.
    rewrite Hnew, (type_assert_other msg Hne). reflexivity.
  - intros v err s' Hnew Hrun. rewrite (Execute_decoded ch input v s Hnew).
    cbn [Command.Run ch]. rewrite Hrun. reflexivity.
Qed.

(** The three cases of C9 on the command of the test plugin: a nil
    envelope, a Duration sent to a command over StringValue, and an input
    the handler refuses. The state counts the calls of the handler. *)
Lemma Command_Execute_errors_witness :
  Command.Execute (H := fixtures.ascii_Fmt) fixtures.PingPong None 0 =
    (Err (errorString "invalid empty type URL"), 0) /\
  Command.Execute (H := fixtures.ascii_Fmt) fixtures.PingPong
    (Some {| TypeUrl := fixtures.url fixtures.Duration;
             Value := [Byte.x01; Byte.x01] |}) 0 =
    (Err (errorString ("invalid input type for command "
                       +:+ dquote +:+ "pingpong" +:+ dquote)), 0) /\
  Command.Execute (H := fixtures.ascii_Fmt) fixtures.PingPong
    (Some {| TypeUrl := fixtures.url fixtures.StringValue;
             Value := list_byte_of_string "pung" |}) 0 =
    (Err (errorString
            ("invalid input " +:+ dquote +:+ "pung" +:+ dquote
             +:+ ", expected " +:+ dquote +:+ "ping" +:+ dquote
             +:+ " or " +:+ dquote +:+ "pong" +:+ dquote)), 1).
Proof.
  split; [|split].
  - apply (proj1 (Command_Execute_errors
                    (H := fixtures.ascii_Fmt) (H0 := fixtures.wellknown_Protobuf)
                    (Input := fixtures.StringValue)
                    (Output := fixtures.StringValue)
                    "pingpong" fixtures.PingPong_Run None 0)).
    reflexivity.
  - apply (proj1 (proj2 (Command_Execute_errors
                    (H := fixtures.ascii_Fmt) (H0 := fixtures.wellknown_Protobuf)
                    (Input := fixtures.StringValue)
                    (Output := fixtures.StringValue)
                    "pingpong" fixtures.PingPong_Run _ 0))
             (existT fixtures.Duration 2)).
    + reflexivity.
    + discriminate.
  - apply (proj2 (proj2 (Command_Execute_errors
                    (H := fixtures.ascii_Fmt) (H0 := fixtures.wellknown_Protobuf)
                    (Input := fixtures.StringValue)
                    (Output := fixtures.StringValue)
                    "pingpong" fixtures.PingPong_Run _ 0))
             "pung" _ 1).
    + reflexivity.
    + reflexivity.
Defined.

(** ** The server: [API.Execute] and [API.Stat] *)

(** [Execute] on a name that is in the registry: the handler runs once. *)
Lemma API_Execute_registered
    `{Fmt} {S : Type} (api : API.t S) (request : pb.ExecuteRequest) (s : S)
    (handler : Handler S) :
  pb.GetName request <> EmptyString ->
  API.handlers api !! pb.GetName request = Some handler ->
  API.Execute api request s =
  let r := handler (pb.GetInput request) s in
  (match fst r with
   | Err err => Err (statusError Internal (errors.Error err))
   | Ok output => Ok {| pb.Output := output |}
   end, api, snd r).
Proof.
  intros Hname Hsome. unfold API.Execute, status.Error.
  unfold Handler, Go in *.
  destruct (decide (pb.GetName request = EmptyString)); [contradiction|].
  rewrite Hsome. cbn zeta.
  destruct (handler (pb.GetInput request) s) as [[output|err] s'];
    reflexivity.
Qed.

(** C2. For every request to [API.Execute]: an empty command name fails
    with status InvalidArgument; a name that is not empty and not in the
    registry fails with status NotFound; when the registered handler
    returns an error the call fails with status Internal whose message is
    the text of that error and nothing else of it; otherwise the call
    succeeds and the response holds the envelope the handler returned. The
    receiver is left as it was, and the handler state is the one the
    handler left (the one before the call when no handler ran). *)
Theorem API_Execute_statuses
    `{Fmt} {S : Type} (api : API.t S) (request : pb.ExecuteRequest) (s : S) :
  (pb.GetName request = EmptyString ->
   API.Execute api request s =
   (Err (statusError InvalidArgument "missing command name"), api, s)) /\
  (pb.GetName request <> EmptyString ->
   API.handlers api !! pb.GetName request = None ->
   API.Execute api request s =
   (Err (statusError NotFound
           ("unknown command " +:+ strconv_Quote (pb.GetName request))),
    api, s)) /\
  (forall handler err s',
      pb.GetName request <> EmptyString ->
      API.handlers api !! pb.GetName request = Some handler ->
      handler (pb.GetInput request) s = (Err err, s') ->
      API.Execute api request s =
      (Err (statusError Internal (errors.Error err)), api, s')) /\
  (forall handler output s',
      pb.GetName request <> EmptyString ->
      API.handlers api !! pb.GetName request = Some handler ->
      handler (pb.GetInput request) s = (Ok output, s') ->
      API.Execute api request s = (Ok {| pb.Output := output |}, api, s')).
Proof.
  unfold API.Execute, status.Error, Handler, Go. repeat split.
  - intros ->. reflexivity.
  - intros Hname Hnone.
    destruct (decide (pb.GetName request = EmptyString)); [contradiction|].
    rewrite Hnone. reflexivity.
  - intros handler err s' Hname Hsome Hrun.
    destruct (decide (pb.GetName request = EmptyString)); [contradiction|].
    rewrite Hsome, Hrun. reflexivity.
  - intros handler output s' Hname Hsome Hrun.
    destruct (decide (pb.GetName request = EmptyString)); [contradiction|].
    rewrite Hsome, Hrun. reflexivity.
Qed.

(** The four cases of C2 on the server of the test plugin. *)
Lemma API_Execute_statuses_witness :
  let api := startPlugin fixtures.test_plugin "v1" in
  let ping := Some {| TypeUrl := fixtures.url fixtures.StringValue;
                      Value := list_byte_of_string "ping" |} in
  let pong := Some {| TypeUrl := fixtures.url fixtures.StringValue;
                      Value := list_byte_of_string "pong" |} in
  API.Execute (H := fixtures.ascii_Fmt) api
    {| pb.GetName := EmptyString; pb.GetInput := ping |} 0 =
    (Err (statusError InvalidArgument "missing command name"), api, 0) /\
  API.Execute (H := fixtures.ascii_Fmt) api
    {| pb.GetName := "missing"; pb.GetInput := ping |} 0 =
    (Err (statusError NotFound
            ("unknown command " +:+ dquote +:+ "missing" +:+ dquote)),
     api, 0) /\
  API.Execute (H := fixtures.ascii_Fmt) api
    {| pb.GetName := "pingpong"; pb.GetInput := None |} 0 =
    (Err (statusError Internal "invalid empty type URL"), api, 0) /\
  API.Execute (H := fixtures.ascii_Fmt) api
    {| pb.GetName := "pingpong"; pb.GetInput := ping |} 0 =
    (Ok {| pb.Output := pong |}, api, 1).
Proof.
  cbv zeta. split; [|split; [|split]].
  - apply (proj1 (API_Execute_statuses (H := fixtures.ascii_Fmt) _ _ 0)).
    reflexivity.
  - apply (proj1 (proj2 (API_Execute_statuses (H := fixtures.ascii_Fmt)
                           _ {| pb.GetName := "missing" |} 0))).
    + discriminate.
    + vm_compute. reflexivity.
  - apply (proj1 (proj2 (proj2 (API_Execute_statuses (H := fixtures.ascii_Fmt)
                                  _ {| pb.GetName := "pingpong" |} 0)))
             (Command.Execute (H := fixtures.ascii_Fmt) fixtures.PingPong)
             (errorString "invalid empty type URL") 0).
    + discriminate.
    + vm_compute. reflexivity.
    + reflexivity.
  - apply (proj2 (proj2 (proj2 (API_Execute_statuses (H := fixtures.ascii_Fmt)
                                  _ {| pb.GetName := "pingpong" |} 0)))
             (Command.Execute (H := fixtures.ascii_Fmt) fixtures.PingPong)).
    + discriminate.
    + vm_compute. reflexivity.
    + reflexivity.
Defined.

Section Server_facts.
Context `{Fmt} {S : Type}.

(** [Execute] never writes to its receiver. *)
Lemma API_Execute_receiver (api : API.t S) request (s : S) :
  snd (fst (API.Execute api request s)) = api.
Proof.
  unfold API.Execute.
  destruct (decide (pb.GetName request = EmptyString)); [reflexivity|].
  destruct (API.handlers api !! pb.GetName request) as [handler|];
    [|reflexivity].
  destruct (handler (pb.GetInput request) s) as [[output|err] s'];
    reflexivity.
Qed.

Lemma serve_receiver (api : API.t S) call (s : S) :
  snd (fst (Server.serve api call s)) = api.
Proof.
  destruct call as [|request]; [reflexivity|].
  cbn. apply API_Execute_receiver.
Qed.

Lemma serve_all_receiver (api : API.t S) calls (s : S) :
  snd (fst (Server.serve_all api calls s)) = api.
Proof.
  revert s. induction calls as [|call calls IH]; intros s; [reflexivity|].
  cbn [Server.serve_all fst snd]. rewrite serve_receiver. apply IH.
Qed.

Lemma serve_all_Stat_replies (api : API.t S) calls (s : S) :
  Forall2 (fun call reply =>
             call = Server.Stat ->
             reply = Server.StatReply (fst (API.Stat api)))
    calls (fst (fst (Server.serve_all api calls s))).
Proof.
  revert s. induction calls as [|call calls IH]; intros s; [constructor|].
  cbn [Server.serve_all fst snd]. constructor.
  - intros ->. reflexivity.
  - rewrite serve_receiver. apply IH.
Qed.

End Server_facts.

(** C7. For every server state, [Stat] returns no error and exactly the
    name, the version and the command list of the stored metadata, and
    leaves the server as it was. Whatever calls are served one after the
    other, Execute calls that succeed or fail and Stat calls between them,
    the server's metadata and handler map are afterwards what they were
    before, every Stat call among them is answered as a Stat call before
    them would be, and so is a Stat call after them. *)
Theorem Stat_invariant_under_Execute `{Fmt} {S : Type} (api : API.t S) :
  API.Stat api =
    (Ok {| pb.Name := Info.Name (API.info api);
           pb.Version := Info.Version (API.info api);
           pb.Commands := Info.Commands (API.info api) |}, api) /\
  forall (calls : list Server.rpc) (s : S),
    let after := snd (fst (Server.serve_all api calls s)) in
    API.info after = API.info api /\
    API.handlers after = API.handlers api /\
    API.Stat after = API.Stat api /\
    Forall2 (fun call reply =>
               call = Server.Stat ->
               reply = Server.StatReply (fst (API.Stat api)))
      calls (fst (fst (Server.serve_all api calls s))).
Proof.
  split; [reflexivity|].
  intros calls s after. subst after.
  rewrite serve_all_receiver.
  repeat split. apply serve_all_Stat_replies.
Qed.

(** ** The host: [Plugin.Exec] *)

Section Exec_facts.
Context `{Fmt} `{Protobuf} {W : Type} `{!World W}.

(** [Client.Execute] once the input is wrapped: one call of the stub, then
    the decoding of the response. *)
Lemma Client_Execute_sent (c : Client.t) name (input : Message) i
    (T : MessageType) (output : Body T) (h : host W) :
  anypb_New input = Ok i ->
  Client.Execute (Some c) name input T output h =
  (Returns
     match fst (Invoke_Execute (Client.conn c)
                  {| pb.GetName := name; pb.GetInput := Some i |} (world h))
     with
     | Err err => (Some err, output)
     | Ok response => Any_UnmarshalTo (pb.Output response) T output
     end,
   after_Execute c name i h).
Proof.
  intros Hnew. unfold Client.Execute, after_Execute. rewrite Hnew.
  unfold mbind, Host_bind, deref, perform, mret, Host_ret. cbn zeta.
  destruct (Invoke_Execute _ _ _) as [[response|err] w']; reflexivity.
Qed.

Lemma Exec_unfold (p : Plugin.t) name (input : Message)
    (T : MessageType) (output : Body T) (h : host W) r h' :
  Client.Execute (Plugin.client p) name input T output h = (Returns r, h') ->
  Plugin.Exec p name input T output h =
  (Returns
     (if decide (status.CodeOf (fst r) = NotFound) then
        (Some (wrapError ("unknown command: " +:+ strconv_Quote name)
                 (sentinelError ErrUnknownCommand)), snd r)
      else
        match fst r with
        | Some e =>
            match status.FromError (fst r) with
            | (Some st, true) => (Some (errorString (status.Message st)), snd r)
            | _ => (Some e, snd r)
            end
        | None => (None, snd r)
        end), h').
Proof.
  intros Hexec. unfold Plugin.Exec, mbind, Host_bind. rewrite Hexec.
  unfold fmt_Errorf_w. cbn [errors.Error errors.sentinel_text].
  destruct (decide (status.CodeOf (fst r) = NotFound)); [reflexivity|].
  destruct (fst r) as [e|]; [|reflexivity].
  destruct (status.FromError (Some e)) as [[st|] [|]]; reflexivity.
Qed.

End Exec_facts.

(** C3. For every call of [Plugin.Exec] on a handle with a client and an
    input that wraps into an envelope, one Execute call is made on the
    channel, and: when it fails with status NotFound the result is an
    error that wraps [ErrUnknownCommand] and whose text carries the quoted
    name; when it fails with any other status the result is a plain error
    whose text is the remote message and which does not wrap
    [ErrUnknownCommand]; when it succeeds and the returned envelope decodes
    into the output, the output holds the decoded message and the result
    is nil. Against a server reached through the channel, the empty name
    gives the plain error of the InvalidArgument status, which does not
    wrap [ErrUnknownCommand]. *)
Theorem Exec_maps_statuses `{Fmt} `{Protobuf} :
  (forall (W : Type) (Wd : World W) (p : Plugin.t) (c : Client.t)
          (name : string) (input : Message) (i : Any)
          (T : MessageType) (output : Body T) (h : host W),
      Plugin.client p = Some c ->
      anypb_New input = Ok i ->
      let reply := fst (Invoke_Execute (Client.conn c)
                          {| pb.GetName := name; pb.GetInput := Some i |}
                          (world h)) in
      let unknown := wrapError ("unknown command: " +:+ strconv_Quote name)
                       (sentinelError ErrUnknownCommand) in
      (forall msg,
          reply = Err (statusError NotFound msg) ->
          Plugin.Exec p name input T output h =
            (Returns (Some unknown, output), after_Execute c name i h) /\
          errors.Is unknown ErrUnknownCommand = true) /\
      (forall code msg,
          code <> NotFound ->
          reply = Err (statusError code msg) ->
          Plugin.Exec p name input T output h =
            (Returns (Some (errorString msg), output),
             after_Execute c name i h) /\
          errors.Is (errorString msg) ErrUnknownCommand = false) /\
      (forall response decoded,
          reply = Ok response ->
          Any_UnmarshalTo (pb.Output response) T output = (None, decoded) ->
          Plugin.Exec p name input T output h =
            (Returns (None, decoded), after_Execute c name i h))) /\
  (forall (S : Type) (Wd : World (API.t S * S)) (p : Plugin.t) (c : Client.t)
          (input : Message) (i : Any) (T : MessageType) (output : Body T)
          (h : host (API.t S * S)),
      Server.connected ->
      Plugin.client p = Some c ->
      anypb_New input = Ok i ->
      Plugin.Exec p EmptyString input T output h =
        (Returns (Some (errorString "missing command name"), output),
         after_Execute c EmptyString i h) /\
      errors.Is (errorString "missing command name") ErrUnknownCommand
        = false).
Proof.
  assert (Hother : forall (W : Type) (Wd : World W) (p : Plugin.t)
             (c : Client.t) name (input : Message) i (T : MessageType)
             (output : Body T) (h : host W) code msg,
             Plugin.client p = Some c ->
             anypb_New input = Ok i ->
             code <> NotFound ->
             fst (Invoke_Execute (Client.conn c)
                    {| pb.GetName := name; pb.GetInput := Some i |}
                    (world h)) = Err (statusError code msg) ->
             Plugin.Exec p name input T output h =
             (Returns (Some (errorString msg), output),
              after_Execute c name i h)).
  { intros W Wd p c name input i T output h code msg Hc Hnew Hcode Hreply.
    erewrite Exec_unfold
      by (rewrite Hc; apply Client_Execute_sent; exact Hnew).
    rewrite Hreply. cbn [fst snd status.CodeOf status.FromError status.Code].
    destruct (decide (code = NotFound)); [contradiction|reflexivity]. }
  split.
  - intros W Wd p c name input i T output h Hc Hnew reply unknown.
    subst reply unknown. split; [|split].
    + intros msg Hreply. split; [|reflexivity].
      erewrite Exec_unfold
        by (rewrite Hc; apply Client_Execute_sent; exact Hnew).
      rewrite Hreply. reflexivity.
    + intros code msg Hcode Hreply. split; [|reflexivity].
      eapply Hother; eassumption.
    + intros response decoded Hreply Hdecode.
      erewrite Exec_unfold
        by (rewrite Hc; apply Client_Execute_sent; exact Hnew).
      rewrite Hreply, Hdecode. reflexivity.
  - intros S Wd p c input i T output h Hconn Hc Hnew.
    split; [|reflexivity].
    eapply (Hother _ _ p c EmptyString input i T output h InvalidArgument);
      [exact Hc|exact Hnew|discriminate|].
    rewrite Hconn. unfold Server.deliver, API.Execute. reflexivity.
Qed.

(** The cases of C3 on a scripted channel (a NotFound status, an Internal
    status, a response holding pong) and on the server of the test
    plugin (the empty name). *)
Lemma Exec_maps_statuses_witness :
  (fixtures.scripted_Exec fixtures.connected_handle "missing"
     (fixtures.string_message "ping") fixtures.StringValue EmptyString
     (fixtures.start (fixtures.replying (Err (statusError NotFound "gone")))) =
   (Returns
      (Some (wrapError ("unknown command: " +:+ dquote +:+ "missing" +:+ dquote)
               (sentinelError ErrUnknownCommand)), EmptyString),
    after_Execute (World0 := fixtures.scripted_World) fixtures.the_client
      "missing" (fixtures.any_string "ping")
      (fixtures.start (fixtures.replying
                         (Err (statusError NotFound "gone")))))) /\
  (fixtures.scripted_Exec fixtures.connected_handle "pingpong"
     (fixtures.string_message "pung") fixtures.StringValue EmptyString
     (fixtures.start (fixtures.replying (Err (statusError Internal "refused")))) =
   (Returns (Some (errorString "refused"), EmptyString),
    after_Execute (World0 := fixtures.scripted_World) fixtures.the_client
      "pingpong" (fixtures.any_string "pung")
      (fixtures.start (fixtures.replying
                         (Err (statusError Internal "refused")))))) /\
  (fixtures.scripted_Exec fixtures.connected_handle "pingpong"
     (fixtures.string_message "ping") fixtures.StringValue EmptyString
     (fixtures.start (fixtures.replying
        (Ok {| pb.Output := Some (fixtures.any_string "pong") |}))) =
   (Returns (None, "pong"),
    after_Execute (World0 := fixtures.scripted_World) fixtures.the_client
      "pingpong" (fixtures.any_string "ping")
      (fixtures.start (fixtures.replying
         (Ok {| pb.Output := Some (fixtures.any_string "pong") |}))))) /\
  fst (fixtures.loopback_Exec fixtures.connected_handle EmptyString
         (fixtures.string_message "ping") fixtures.StringValue EmptyString
         {| log := [];
            world := (startPlugin fixtures.test_plugin "v1", 0) |}) =
  Returns (Some (errorString "missing command name"), EmptyString).
Proof.
  pose proof (Exec_maps_statuses (H := fixtures.ascii_Fmt)
                (H0 := fixtures.wellknown_Protobuf)) as [Hany Hempty].
  split; [|split; [|split]].
  - refine (proj1 (proj1 (Hany fixtures.script fixtures.scripted_World
                            fixtures.connected_handle fixtures.the_client
                            "missing" (fixtures.string_message "ping")
                            (fixtures.any_string "ping")
                            fixtures.StringValue EmptyString
                            (fixtures.start (fixtures.replying
                               (Err (statusError NotFound "gone"))))
                            eq_refl eq_refl) "gone" eq_refl)).
  - refine (proj1 (proj1 (proj2 (Hany fixtures.script fixtures.scripted_World
                            fixtures.connected_handle fixtures.the_client
                            "pingpong" (fixtures.string_message "pung")
                            (fixtures.any_string "pung")
                            fixtures.StringValue EmptyString
                            (fixtures.start (fixtures.replying
                               (Err (statusError Internal "refused"))))
                            eq_refl eq_refl)) Internal "refused" _ eq_refl)).
    discriminate.
  - refine (proj2 (proj2 (Hany fixtures.script fixtures.scripted_World
                            fixtures.connected_handle fixtures.the_client
                            "pingpong" (fixtures.string_message "ping")
                            (fixtures.any_string "ping")
                            fixtures.StringValue EmptyString
                            (fixtures.start (fixtures.replying
                               (Ok {| pb.Output :=
                                        Some (fixtures.any_string "pong") |})))
                            eq_refl eq_refl)) _ "pong" eq_refl eq_refl).
  - refine (f_equal fst
              (proj1 (Hempty nat (fixtures.loopback_World nat)
                        fixtures.connected_handle fixtures.the_client
                        (fixtures.string_message "ping")
                        (fixtures.any_string "ping")
                        fixtures.StringValue EmptyString
                        {| log := [];
                           world := (startPlugin fixtures.test_plugin "v1", 0) |}
                        _ eq_refl eq_refl))).
    intros conn request server. reflexivity.
Defined.

(** ** End to end: host, channel, server, adapter, handler *)

(** The fixture envelope loses nothing. *)
Lemma wellknown_lossless (t : fixtures.wellknown) :
  lossless (H := fixtures.wellknown_Protobuf) t.
Proof.
  assert (Hround : forall v, fixtures.decode t (fixtures.encode t v) = v).
  { destruct t; intros v; cbn.
    - apply string_of_list_byte_of_string.
    - apply repeat_length. }
  assert (Hresolve : fixtures.resolve (fixtures.url t) = Some t)
    by (destruct t; vm_compute; reflexivity).
  intros v.
  exists {| TypeUrl := fixtures.url t; Value := fixtures.encode t v |}.
  split; [reflexivity|]. split.
  - cbn. rewrite Hresolve, Hround. reflexivity.
  - intros dst. cbn.
    destruct (decide (fixtures.url t = fixtures.url t)); [|contradiction].
    rewrite Hround. reflexivity.
Qed.

(** C1, as amended. For every command registered under a name that is not
    empty, on a channel that reaches the server, with input and output
    types that go through the envelope without loss, and for every input
    value of the command's input type and every output destination of its
    output type: [Plugin.Exec] returns nil and leaves in the destination
    the value the handler produces for that input when the handler
    succeeds, and returns an error (the plain text of the handler's error)
    and leaves the destination as it was exactly when the handler fails;
    the handler state is the one the handler alone would leave. *)
Theorem Exec_returns_handler_output
    `{Fmt} `{Protobuf} {S : Type} {Wd : World (API.t S * S)}
    {Input Output : MessageType}
    (ch : Command.t (S := S) Input Output) (api : API.t S)
    (p : Plugin.t) (c : Client.t)
    (v : Body Input) (output : Body Output) (s : S) (lg : list event) :
  Server.connected ->
  Plugin.client p = Some c ->
  lossless Input ->
  lossless Output ->
  Command.Use ch <> EmptyString ->
  API.handlers api !! Command.Use ch = Some (Command.Execute ch) ->
  let handled := Command.Run ch v s in
  exists h',
    Plugin.Exec p (Command.Use ch) (message v) Output output
      {| log := lg; world := (api, s) |} =
    (Returns match fst handled with
             | Ok produced => (None, produced)
             | Err err => (Some (errorString (errors.Error err)), output)
             end, h') /\
    world h' = (api, snd handled).
Proof.
  intros Hconn Hc HI HO Hname Hreg handled. subst handled.
  destruct (HI v) as (a & Hnew & Hun & _).
  set (request := {| pb.GetName := Command.Use ch; pb.GetInput := Some a |}).
  pose proof (API_Execute_registered api request s _ Hname Hreg) as Hapi.
  cbn zeta in Hapi. cbn [request pb.GetInput] in Hapi.
  rewrite (Execute_decoded ch (Some a) v s Hun) in Hapi. cbn zeta in Hapi.
  eexists. split.
  - erewrite Exec_unfold
      by (rewrite Hc; apply Client_Execute_sent; exact Hnew).
    fold request. rewrite Hconn. unfold Server.deliver. cbn [world fst snd].
    rewrite Hapi.
    destruct (Command.Run ch v s) as [[produced|err] s1]; cbn [fst snd];
      [|reflexivity].
    destruct (HO produced) as (out & Hout & _ & Hto).
    rewrite Hout. cbn. rewrite Hto. reflexivity.
  - unfold after_Execute. fold request. rewrite Hconn.
    unfold Server.deliver. cbn [world fst snd].
    rewrite Hapi.
    destruct (Command.Run ch v s) as [[produced|err] s1]; cbn [fst snd];
      [|reflexivity].
    destruct (HO produced) as (out & Hout & _ & _).
    rewrite Hout. reflexivity.
Qed.

(** C1 on the test plugin: ping sent to pingpong through the server comes
    back as pong, with no error, after one call of the handler. *)
Lemma Exec_returns_handler_output_witness :
  exists h',
    fixtures.loopback_Exec fixtures.connected_handle "pingpong"
      (fixtures.string_message "ping") fixtures.StringValue EmptyString
      {| log := []; world := (startPlugin fixtures.test_plugin "v1", 0) |} =
    (Returns (None, "pong"), h') /\
    world h' = (startPlugin fixtures.test_plugin "v1", 1).
Proof.
  refine (Exec_returns_handler_output
            (H := fixtures.ascii_Fmt) (H0 := fixtures.wellknown_Protobuf)
            (Wd := fixtures.loopback_World nat)
            fixtures.PingPong (startPlugin fixtures.test_plugin "v1")
            fixtures.connected_handle fixtures.the_client
            "ping" EmptyString 0 [] _ eq_refl
            (wellknown_lossless fixtures.StringValue)
            (wellknown_lossless fixtures.StringValue) _ _).
  - intros conn request server. reflexivity.
  - discriminate.
  - vm_compute. reflexivity.
Defined.

(** C1 as stated fails for a command registered under the empty name: the
    channel reaches the server, the type goes through the envelope without
    loss, the command is in the registry and its handler returns the input,
    yet [Plugin.Exec] returns the error of the InvalidArgument status. *)
Lemma Exec_fails_for_the_empty_name :
  let ch := fixtures.Echo EmptyString in
  let api := startPlugin fixtures.nameless_plugin "v1" in
  Server.connected (H := fixtures.ascii_Fmt)
    (World0 := fixtures.loopback_World (H := fixtures.ascii_Fmt) nat) /\
  lossless (H := fixtures.wellknown_Protobuf) fixtures.StringValue /\
  API.handlers api !! Command.Use ch =
    Some (Command.Execute (H := fixtures.ascii_Fmt) ch) /\
  fst (Command.Run ch "hello" 0) = Ok "hello" /\
  fst (fixtures.loopback_Exec fixtures.connected_handle (Command.Use ch)
         (fixtures.string_message "hello") fixtures.StringValue EmptyString
         {| log := []; world := (api, 0) |}) =
  Returns (Some (errorString "missing command name"), EmptyString).
Proof.
  cbv zeta. split; [|split; [|split; [|split]]].
  - intros conn request server. reflexivity.
  - apply wellknown_lossless.
  - vm_compute. reflexivity.
  - reflexivity.
  - vm_compute. reflexivity.
Qed.

(** ** The host: [Plugin.Close] and [Use] *)

Lemma occurs_refl (e : error) : errors.occurs e e.
Proof. destruct e; cbn; left; reflexivity. Qed.


Section Use_facts.
Context `{Fmt} {W : Type} `{!World W}.

(** [Use] after a successful start and dial, up to the reply of Stat. *)
Lemma Use_handshake (path : string) (h : host W)
    process w1 conn w2 (stat : result pb.StatResponse) w3 :
  let socket := fst (xid_New (world h)) in
  let target := "unix:///tmp/" +:+ socket +:+ ".sock" in
  let p := {| Plugin.command :=
                Some {| exec.Path := path; exec.Args := [path; socket];
                        exec.Process := Some process |};
              Plugin.client := Some {| Client.conn := conn |};
              Plugin.info := zero_Info |} in
  let h3 := {| log := log h ++
                 [ {| what := CallStart path [path; socket]; failed := None |};
                   {| what := CallDial target; failed := None |};
                   {| what := CallWait; failed := None |};
                   {| what := CallStat; failed := error_of stat |} ];
               world := w3 |} in
  Cmd_Start path [path; socket] (snd (xid_New (world h))) = (Ok process, w1) ->
  grpc_NewClient target w1 = (Ok conn, w2) ->
  Invoke_Stat conn (Ticker_wait w2) = (stat, w3) ->
  Use path h =
  match stat with
  | Err err =>
      match Plugin.Close p h3 with
      | (Returns closed, h') =>
          (Returns (None, errors.Join [closed; Some err]), h')
      | (Panics, h') => (Panics, h')
      end
  | Ok response =>
      if decide (pb.Name response ≠ filepath.Base path) then
        (Returns
           (None,
            Some (wrapError
                    ("unexpected plugin name: expected "
                     +:+ strconv_Quote (filepath.Base path)
                     +:+ ", got " +:+ strconv_Quote (pb.Name response))
                    (sentinelError ErrUnexpectedName))), h3)
      else
        (Returns
           (Some {| Plugin.command := Plugin.command p;
                    Plugin.client := Plugin.client p;
                    Plugin.info :=
                      {| Info.Name := pb.Name response;
                         Info.Version := pb.Version response;
                         Info.Commands := pb.Commands response |} |},
            None), h3)
  end.
Proof.
  intros socket target p h3 Hstart Hdial Hstat. subst socket target p h3.
  unfold Use, Start, Client.NewClient, Client.Stat, mbind, Host_bind,
    perform, deref, mret, Host_ret, fmt_Errorf_w.
  cbn [world log fst snd exec.Path exec.Args].
  rewrite Hstart. cbn [world log fst snd error_of].
  rewrite Hdial. cbn [world log fst snd error_of Plugin.client Client.conn].
  rewrite Hstat. cbn [world log fst snd].
  rewrite <- !app_assoc. cbn [app].
  destruct stat as [response|err]; cbn [error_of].
  - cbn [Info.Name]. destruct (decide (pb.Name response ≠ filepath.Base path));
      reflexivity.
  - destruct (Plugin.Close _ _) as [[closed|] h']; reflexivity.
Qed.

End Use_facts.

(** [Close] on a handle that has a client and a started process. *)
Lemma Close_with_client_and_process {W : Type} `{!World W}
    (cmd : exec.Cmd) (c : Client.t) (process : os.Process) (info : Info.t)
    (h : host W) :
  exec.Process cmd = Some process ->
  let closing := ClientConn_Close (Client.conn c) (world h) in
  let signalling := Process_Signal process syscall.SIGTERM (snd closing) in
  Plugin.Close {| Plugin.command := Some cmd; Plugin.client := Some c;
                  Plugin.info := info |} h =
  (Returns (errors.Join [errors.Join [None; fst closing]; fst signalling]),
   {| log := log h ++
        [ {| what := CallConnClose (grpc.Target (Client.conn c));
             failed := fst closing |};
          {| what := CallSignal (os.Pid process) syscall.SIGTERM;
             failed := fst signalling |} ];
      world := snd signalling |}).
Proof.
  intros Hprocess closing signalling. subst closing signalling.
  unfold Plugin.Close, Client.Close, mbind, Host_bind, perform, deref, mret,
    Host_ret.
  cbn [Plugin.client Plugin.command world log fst snd id]. rewrite Hprocess.
  cbn [world log fst snd id]. rewrite <- app_assoc. reflexivity.
Qed.

(** The path that does clean up: when Stat fails after a successful start
    and dial, [Use] calls [Close] on the handle built so far and returns
    the join of what [Close] returned and the error of Stat. *)
Lemma Use_Stat_failure_closes `{Fmt} {W : Type} `{!World W}
    (path : string) (h : host W) process w1 conn w2 err w3 :
  let socket := fst (xid_New (world h)) in
  let target := "unix:///tmp/" +:+ socket +:+ ".sock" in
  Cmd_Start path [path; socket] (snd (xid_New (world h))) = (Ok process, w1) ->
  grpc_NewClient target w1 = (Ok conn, w2) ->
  Invoke_Stat conn (Ticker_wait w2) = (Err err, w3) ->
  exists closed steps joined h',
    Use path h = (Returns (None, Some joined), h') /\
    errors.Join [closed; Some err] = Some joined /\
    errors.occurs err joined /\
    log h' = log h ++ steps /\
    what <$> steps =
      [CallStart path [path; socket]; CallDial target; CallWait; CallStat;
       CallConnClose (grpc.Target conn);
       CallSignal (os.Pid process) syscall.SIGTERM].
Proof.
  intros socket target Hstart Hdial Hstat.
  rewrite (Use_handshake path h _ _ _ _ _ _ Hstart Hdial Hstat).
  fold socket. fold target.
  rewrite (Close_with_client_and_process _ _ process) by reflexivity.
  cbn zeta. cbn [world log Client.conn].
  destruct (ClientConn_Close conn w3) as [e1 w4]. cbn [fst snd].
  destruct (Process_Signal process syscall.SIGTERM w4) as [e2 w5].
  cbn [fst snd].
  assert (Hjoin : exists joined,
             errors.Join [errors.Join [errors.Join [None; e1]; e2]; Some err]
             = Some joined /\ errors.occurs err joined).
  { destruct e1 as [e1|], e2 as [e2|]; eexists; (split; [reflexivity|]);
      cbn; auto 6 using occurs_refl. }
  destruct Hjoin as (joined & Hjoin & Hocc).
  eexists (errors.Join [errors.Join [None; e1]; e2]),
    [ {| what := CallStart path [path; socket]; failed := None |};
      {| what := CallDial target; failed := None |};
      {| what := CallWait; failed := None |};
      {| what := CallStat; failed := Some err |};
      {| what := CallConnClose (grpc.Target conn); failed := e1 |};
      {| what := CallSignal (os.Pid process) syscall.SIGTERM;
         failed := e2 |} ],
    joined, _.
  rewrite Hjoin.
  split; [reflexivity|]. split; [reflexivity|]. split; [exact Hocc|].
  split; [|reflexivity].
  cbn [log error_of]. rewrite <- app_assoc. reflexivity.
Qed.

(** C4. What [Use] does when the name the plugin reports differs from the
    base name of the path: it returns no handle and an error that wraps
    [ErrUnexpectedName] and carries both names, and the calls it has made
    are the start of the subprocess, the dial, the wait and Stat: neither
    the close of the connection nor a signal to the subprocess is among
    them, so the subprocess is left running. *)
Theorem Use_name_mismatch_leaves_process `{Fmt} {W : Type} `{!World W}
    (path : string) (h : host W) process w1 conn w2 response w3 :
  let socket := fst (xid_New (world h)) in
  let target := "unix:///tmp/" +:+ socket +:+ ".sock" in
  Cmd_Start path [path; socket] (snd (xid_New (world h))) = (Ok process, w1) ->
  grpc_NewClient target w1 = (Ok conn, w2) ->
  Invoke_Stat conn (Ticker_wait w2) = (Ok response, w3) ->
  pb.Name response <> filepath.Base path ->
  exists steps,
    Use path h =
      (Returns
         (None,
          Some (wrapError
                  ("unexpected plugin name: expected "
                   +:+ strconv_Quote (filepath.Base path)
                   +:+ ", got " +:+ strconv_Quote (pb.Name response))
                  (sentinelError ErrUnexpectedName))),
       {| log := log h ++ steps; world := w3 |}) /\
    what <$> steps =
      [CallStart path [path; socket]; CallDial target; CallWait; CallStat].
Proof.
  intros socket target Hstart Hdial Hstat Hname.
  rewrite (Use_handshake path h _ _ _ _ _ _ Hstart Hdial Hstat).
  destruct (decide (pb.Name response ≠ filepath.Base path)); [|contradiction].
  eexists. split; reflexivity.
Qed.

(** C4 on a binary at /tmp/bar that reports the name foo. *)
Lemma Use_name_mismatch_leaves_process_witness :
  exists steps,
    fixtures.scripted_Use "/tmp/bar" (fixtures.start fixtures.misnamed) =
      (Returns
         (None,
          Some (wrapError
                  ("unexpected plugin name: expected "
                   +:+ dquote +:+ "bar" +:+ dquote
                   +:+ ", got " +:+ dquote +:+ "foo" +:+ dquote)
                  (sentinelError ErrUnexpectedName))),
       {| log := [] ++ steps; world := fixtures.misnamed |}) /\
    what <$> steps =
      [CallStart "/tmp/bar" ["/tmp/bar"; "d0a1b2c3"];
       CallDial "unix:///tmp/d0a1b2c3.sock"; CallWait; CallStat].
Proof.
  refine (Use_name_mismatch_leaves_process
            (H := fixtures.ascii_Fmt) (World0 := fixtures.scripted_World)
            "/tmp/bar" (fixtures.start fixtures.misnamed)
            {| os.Pid := 4242 |} fixtures.misnamed
            {| grpc.Target := "unix:///tmp/d0a1b2c3.sock" |} fixtures.misnamed
            {| pb.Name := "foo"; pb.Version := "v1"; pb.Commands := [] |}
            fixtures.misnamed eq_refl eq_refl eq_refl _).
  vm_compute. discriminate.
Defined.

(** The return written for a dial error (plugin.go, lines 222 to 224): no
    handle, an error that wraps the dial error, and no call after the dial.
    [grpc.NewClient] does no I/O and accepts the target and the credentials
    [Use] gives it, so this return is not taken by a run of [Use]. *)
Lemma Use_dial_failure_leaves_process `{Fmt} {W : Type} `{!World W}
    (path : string) (h : host W) process w1 err w2 :
  let socket := fst (xid_New (world h)) in
  let target := "unix:///tmp/" +:+ socket +:+ ".sock" in
  Cmd_Start path [path; socket] (snd (xid_New (world h))) = (Ok process, w1) ->
  grpc_NewClient target w1 = (Err err, w2) ->
  Use path h =
    (Returns
       (None,
        Some (wrapError
                ("failed to dial plugin "
                 +:+ strconv_Quote (filepath.Base path) +:+ ": "
                 +:+ errors.Error err) err)),
     {| log := log h ++
          [ {| what := CallStart path [path; socket]; failed := None |};
            {| what := CallDial target; failed := Some err |} ];
        world := w2 |}).
Proof.
  intros socket target Hstart Hdial. subst socket target.
  unfold Use, Start, Client.NewClient, mbind, Host_bind, perform, mret,
    Host_ret, fmt_Errorf_w.
  cbn [world log fst snd exec.Path exec.Args].
  rewrite Hstart. cbn [world log fst snd error_of].
  rewrite Hdial. cbn [world log fst snd error_of].
  rewrite <- !app_assoc. reflexivity.
Qed.



(** ** The code on the scenarios of the tests *)

(** A handle made by hand with no command: [Close] dereferences the nil
    pointer. [Use] never builds such a handle. *)
Remark Close_without_command_panics {W : Type} `{!World W}
    (info : Info.t) (h : host W) :
  Plugin.Close {| Plugin.command := None; Plugin.client := None;
                  Plugin.info := info |} h = (Panics, h).
Proof. reflexivity. Qed.

Example Base_of_paths :
  filepath.Base "/tmp/bar" = "bar" /\
  filepath.Base "./test_plugin" = "test_plugin" /\
  filepath.Base "bar//" = "bar" /\
  filepath.Base "///" = "/" /\
  filepath.Base EmptyString = ".".
Proof. repeat split; reflexivity. Qed.

(** [TestUse]: the handshake with a plugin that reports the base name of
    its path gives a handle on it, and nothing is closed. *)
Example Use_test_plugin :
  fixtures.scripted_Use "./test_plugin" (fixtures.start fixtures.healthy) =
  (Returns
     (Some {| Plugin.command :=
                Some {| exec.Path := "./test_plugin";
                        exec.Args := ["./test_plugin"; "d0a1b2c3"];
                        exec.Process := Some {| os.Pid := 4242 |} |};
              Plugin.client := Some fixtures.the_client;
              Plugin.info := {| Info.Name := "test_plugin";
                                Info.Version := "v1";
                                Info.Commands := ["pingpong"] |} |},
      None),
   {| log :=
        [ {| what := CallStart "./test_plugin" ["./test_plugin"; "d0a1b2c3"];
             failed := None |};
          {| what := CallDial "unix:///tmp/d0a1b2c3.sock"; failed := None |};
          {| what := CallWait; failed := None |};
          {| what := CallStat; failed := None |} ];
      world := fixtures.healthy |}).
Proof. vm_compute. reflexivity. Qed.

(** A subprocess that never serves: Stat fails, both steps of the cleanup
    are made although the first fails, and the three errors are joined. *)
Example Use_unserved_plugin :
  fixtures.scripted_Use "./test_plugin" (fixtures.start fixtures.unserved) =
  (Returns
     (None,
      Some (joinError
              [ joinError
                  [ joinError
                      [opaqueError "grpc" "the client connection is closing"];
                    opaqueError "os" "process already finished" ];
                statusError Unavailable "connection refused" ])),
   {| log :=
        [ {| what := CallStart "./test_plugin" ["./test_plugin"; "d0a1b2c3"];
             failed := None |};
          {| what := CallDial "unix:///tmp/d0a1b2c3.sock"; failed := None |};
          {| what := CallWait; failed := None |};
          {| what := CallStat;
             failed := Some (statusError Unavailable "connection refused") |};
          {| what := CallConnClose "unix:///tmp/d0a1b2c3.sock";
             failed :=
               Some (opaqueError "grpc" "the client connection is closing") |};
          {| what := CallSignal 4242 syscall.SIGTERM;
             failed := Some (opaqueError "os" "process already finished") |} ];
      world := fixtures.unserved |}).
Proof. vm_compute. reflexivity. Qed.

(** [TestUse], the three calls of pingpong and the unknown command, on the
    server of the test plugin. *)
Example Exec_test_plugin :
  let h := {| log := [];
              world := (startPlugin fixtures.test_plugin "v1", 0) |} in
  let exec name input :=
    fst (fixtures.loopback_Exec fixtures.connected_handle name input
           fixtures.StringValue EmptyString h) in
  exec "pingpong" (fixtures.string_message "ping") = Returns (None, "pong") /\
  exec "pingpong" (fixtures.string_message "pong") = Returns (None, "ping") /\
  exec "pingpong" (fixtures.string_message "pung") =
    Returns (Some (errorString
                     ("invalid input " +:+ dquote +:+ "pung" +:+ dquote
                      +:+ ", expected " +:+ dquote +:+ "ping" +:+ dquote
                      +:+ " or " +:+ dquote +:+ "pong" +:+ dquote)),
             EmptyString) /\
  exec "unknown" (fixtures.string_message "pong") =
    Returns (Some (wrapError
                     ("unknown command: " +:+ dquote +:+ "unknown" +:+ dquote)
                     (sentinelError ErrUnknownCommand)), EmptyString) /\
  exec "pingpong" (fixtures.duration_message 3600) =
    Returns (Some (errorString
                     ("invalid input type for command "
                      +:+ dquote +:+ "pingpong" +:+ dquote)), EmptyString).
Proof. cbv zeta. repeat split; vm_compute; reflexivity. Qed.

(** * Further properties of the code *)

(** ** [Use]: every path through the handshake *)

Section Use_paths.
Context `{Fmt} {W : Type} `{!World W}.

(** [Use] by the replies of the world, one case for each return. *)
Lemma Use_cases (path : string) (h : host W) :
  let socket := fst (xid_New (world h)) in
  let target := "unix:///tmp/" +:+ socket +:+ ".sock" in
  let start := Cmd_Start path [path; socket] (snd (xid_New (world h))) in
  let started := {| what := CallStart path [path; socket];
                    failed := error_of (fst start) |} in
  Use path h =
  match fst start with
  | Err err =>
      (Returns (None,
                Some (wrapError ("failed to start plugin at "
                                 +:+ strconv_Quote path +:+ ": "
                                 +:+ errors.Error err) err)),
       {| log := log h ++ [started]; world := snd start |})
  | Ok process =>
      let dial := grpc_NewClient target (snd start) in
      let dialled := {| what := CallDial target;
                        failed := error_of (fst dial) |} in
      match fst dial with
      | Err err =>
          (Returns (None,
                    Some (wrapError ("failed to dial plugin "
                                     +:+ strconv_Quote (filepath.Base path)
                                     +:+ ": " +:+ errors.Error err) err)),
           {| log := log h ++ [started; dialled]; world := snd dial |})
      | Ok conn =>
          let stat := Invoke_Stat conn (Ticker_wait (snd dial)) in
          let asked := [ started; dialled;
                         {| what := CallWait; failed := None |};
                         {| what := CallStat;
                            failed := error_of (fst stat) |} ] in
          let cmd := {| exec.Path := path; exec.Args := [path; socket];
                        exec.Process := Some process |} in
          match fst stat with
          | Err err =>
              let closing := ClientConn_Close conn (snd stat) in
              let signalling :=
                Process_Signal process syscall.SIGTERM (snd closing) in
              (Returns (None,
                        errors.Join
                          [errors.Join [errors.Join [None; fst closing];
                                        fst signalling];
                           Some err]),
               {| log := log h ++ asked ++
                    [ {| what := CallConnClose (grpc.Target conn);
                         failed := fst closing |};
                      {| what := CallSignal (os.Pid process) syscall.SIGTERM;
                         failed := fst signalling |} ];
                  world := snd signalling |})
          | Ok response =>
              if decide (pb.Name response ≠ filepath.Base path) then
                (Returns
                   (None,
                    Some (wrapError
                            ("unexpected plugin name: expected "
                             +:+ strconv_Quote (filepath.Base path)
                             +:+ ", got " +:+ strconv_Quote (pb.Name response))
                            (sentinelError ErrUnexpectedName))),
                 {| log := log h ++ asked; world := snd stat |})
              else
                (Returns
                   (Some {| Plugin.command := Some cmd;
                            Plugin.client := Some {| Client.conn := conn |};
                            Plugin.info :=
                              {| Info.Name := pb.Name response;
                                 Info.Version := pb.Version response;
                                 Info.Commands := pb.Commands response |} |},
                    None),
                 {| log := log h ++ asked; world := snd stat |})
          end
      end
  end.
Proof.
  cbv zeta.
  destruct (Cmd_Start path _ _) as [[process|err] w1] eqn:Hstart;
    cbn [fst snd error_of].
  - destruct (grpc_NewClient _ w1) as [[conn|err] w2] eqn:Hdial;
      cbn [fst snd error_of].
    + destruct (Invoke_Stat conn (Ticker_wait w2)) as [stat w3] eqn:Hstat.
      rewrite (Use_handshake path h _ _ _ _ _ _ Hstart Hdial Hstat).
      cbn [fst snd]. destruct stat as [response|err]; [reflexivity|].
      rewrite (Close_with_client_and_process _ _ process) by reflexivity.
      cbn zeta. cbn [world log Client.conn error_of].
      rewrite <- app_assoc. reflexivity.
    + unfold Use, Start, Client.NewClient, mbind, Host_bind, perform, mret,
        Host_ret, fmt_Errorf_w.
      cbn [world log fst snd exec.Path exec.Args].
      rewrite Hstart. cbn [world log fst snd error_of].
      rewrite Hdial. cbn [world log fst snd error_of].
      rewrite <- !app_assoc. reflexivity.
  - unfold Use, Start, mbind, Host_bind, perform, mret, Host_ret,
      fmt_Errorf_w.
    cbn [world log fst snd exec.Path exec.Args].
    rewrite Hstart. reflexivity.
Qed.

End Use_paths.

(** X1. [Use] (its context apart, which the model leaves out) always
    returns, with either a handle and no error or an error and no handle.
    A returned handle is made of exactly what [Use] did: its command has
    the path and the arguments [Use] started it with and the process that
    start returned, its client holds the connection the dial returned for
    the socket of this run, and its metadata is the reply of Stat on that
    connection, whose name is the base name of the path. *)
Theorem Use_returns_handle_or_error `{Fmt} {W : Type} `{!World W}
    (path : string) (h : host W) :
  let socket := fst (xid_New (world h)) in
  let target := "unix:///tmp/" +:+ socket +:+ ".sock" in
  exists handle err h',
    Use path h = (Returns (handle, err), h') /\
    match handle, err with
    | Some p, None =>
        exists process w1 conn w2 response,
          Cmd_Start path [path; socket] (snd (xid_New (world h)))
            = (Ok process, w1) /\
          grpc_NewClient target w1 = (Ok conn, w2) /\
          fst (Invoke_Stat conn (Ticker_wait w2)) = Ok response /\
          pb.Name response = filepath.Base path /\
          p = {| Plugin.command :=
                   Some {| exec.Path := path;
                           exec.Args := [path; socket];
                           exec.Process := Some process |};
                 Plugin.client := Some {| Client.conn := conn |};
                 Plugin.info :=
                   {| Info.Name := pb.Name response;
                      Info.Version := pb.Version response;
                      Info.Commands := pb.Commands response |} |} /\
          Plugin.Name p = filepath.Base path
    | None, Some _ => True
    | _, _ => False
    end.
Proof.
  intros socket target. rewrite Use_cases. cbv zeta. fold socket target.
  destruct (Cmd_Start path [path; socket] _) as [[process|err] w1] eqn:Hstart;
    cbn [fst snd];
    [|eexists _, _, _; split; [reflexivity|exact I]].
  destruct (grpc_NewClient target w1) as [[conn|err] w2] eqn:Hdial;
    cbn [fst snd];
    [|eexists _, _, _; split; [reflexivity|exact I]].
  destruct (fst (Invoke_Stat conn (Ticker_wait w2))) as [response|err]
    eqn:Hstat.
  - destruct (decide (pb.Name response ≠ filepath.Base path)) as [Hne|Heq];
      eexists _, _, _; (split; [reflexivity|]); [exact I|].
    assert (Hname : pb.Name response = filepath.Base path)
      by (destruct (decide (pb.Name response = filepath.Base path));
          [assumption|contradiction]).
    exists process, w1, conn, w2, response.
    split; [reflexivity|]. split; [exact Hdial|]. split; [exact Hstat|].
    split; [exact Hname|]. split; [reflexivity|exact Hname].
  - destruct (fst (ClientConn_Close _ _)), (fst (Process_Signal _ _ _));
      eexists _, _, _; (split; [reflexivity|exact I]).
Qed.

(** X2. The calls [Use] makes on the world are, in this order, the start
    of the binary with the path and the socket identifier as its
    arguments, the dial of the address the plugin listens on for that
    identifier, the wait, Stat, the close of the connection and the
    termination signal; [Use] stops after the first, the second, the
    fourth or the sixth of them. A handle is returned only after exactly
    the first four: nothing is closed or signalled then. *)
Theorem Use_calls_in_order `{Fmt} {W : Type} `{!World W}
    (path : string) (h : host W) :
  let socket := fst (xid_New (world h)) in
  let start := CallStart path [path; socket] in
  let dial := CallDial ("unix://" +:+ startPlugin_socket socket) in
  exists handle err h' steps,
    Use path h = (Returns (handle, err), h') /\
    log h' = log h ++ steps /\
    (what <$> steps = [start] \/
     what <$> steps = [start; dial] \/
     what <$> steps = [start; dial; CallWait; CallStat] \/
     exists target pid,
       what <$> steps =
         [start; dial; CallWait; CallStat; CallConnClose target;
          CallSignal pid syscall.SIGTERM]) /\
    (is_Some handle ->
     what <$> steps = [start; dial; CallWait; CallStat]).
Proof.
  rewrite Use_cases. cbv zeta.
  destruct (fst (Cmd_Start _ _ _)) as [process|err].
  2:{ eexists _, _, _, [_]. split; [reflexivity|]. split; [reflexivity|].
      split; [left; reflexivity|]. intros [? [=]]. }
  destruct (fst (grpc_NewClient _ _)) as [conn|err].
  2:{ eexists _, _, _, [_; _]. split; [reflexivity|]. split; [reflexivity|].
      split; [right; left; reflexivity|]. intros [? [=]]. }
  destruct (fst (Invoke_Stat _ _)) as [response|err].
  - destruct (decide (pb.Name response ≠ filepath.Base path));
      eexists _, _, _, [_; _; _; _];
      (split; [reflexivity|]); (split; [reflexivity|]);
      (split; [right; right; left; reflexivity|]); reflexivity.
  - eexists _, _, _, [_; _; _; _; _; _].
    split; [reflexivity|]. split; [reflexivity|].
    split; [right; right; right; eexists _, _; reflexivity|].
    intros [? [=]].
Qed.

(** X3. When the binary cannot be started, [Use] makes no other call: it
    does not dial and has nothing to clean up. It returns no handle and an
    error that wraps the start error and quotes the path. *)
Theorem Use_start_failure_stops `{Fmt} {W : Type} `{!World W}
    (path : string) (h : host W) err w1 :
  let socket := fst (xid_New (world h)) in
  Cmd_Start path [path; socket] (snd (xid_New (world h))) = (Err err, w1) ->
  exists wrapped,
    Use path h =
      (Returns (None, Some wrapped),
       {| log := log h ++ [ {| what := CallStart path [path; socket];
                               failed := Some err |} ];
          world := w1 |}) /\
    errors.occurs err wrapped /\
    errors.Error wrapped =
      "failed to start plugin at " +:+ strconv_Quote path +:+ ": "
      +:+ errors.Error err.
Proof.
  intros socket Hstart. rewrite Use_cases. cbv zeta. fold socket.
  rewrite Hstart. cbn [fst snd error_of].
  eexists. split; [reflexivity|]. split; [|reflexivity].
  cbn. right. apply occurs_refl.
Qed.

(** X3 on a path with no binary behind it. *)
Lemma Use_start_failure_stops_witness :
  exists wrapped,
    fixtures.scripted_Use "./missing" (fixtures.start fixtures.unstartable) =
      (Returns (None, Some wrapped),
       {| log := [] ++
            [ {| what := CallStart "./missing" ["./missing"; "d0a1b2c3"];
                 failed :=
                   Some (opaqueError "exec" "no such file or directory") |} ];
          world := fixtures.unstartable |}) /\
    errors.occurs (opaqueError "exec" "no such file or directory") wrapped /\
    errors.Error wrapped =
      "failed to start plugin at " +:+ (dquote +:+ "./missing" +:+ dquote)
      +:+ ": " +:+ "no such file or directory".
Proof.
  refine (Use_start_failure_stops
            (H := fixtures.ascii_Fmt) (World0 := fixtures.scripted_World)
            "./missing" (fixtures.start fixtures.unstartable)
            (opaqueError "exec" "no such file or directory")
            fixtures.unstartable eq_refl).
Defined.

(** X4. When Stat fails after the binary was started and the client
    dialled, [Use] closes the connection and then signals the process,
    whatever the close returned, and returns no handle and one error that
    carries the error of Stat and the error of each cleanup call that
    failed: none is dropped. *)
Theorem Use_Stat_failure_keeps_every_error `{Fmt} {W : Type} `{!World W}
    (path : string) (h : host W)
    process w1 conn w2 err w3 (e1 : option error) w4 (e2 : option error) w5 :
  let socket := fst (xid_New (world h)) in
  let target := "unix:///tmp/" +:+ socket +:+ ".sock" in
  Cmd_Start path [path; socket] (snd (xid_New (world h))) = (Ok process, w1) ->
  grpc_NewClient target w1 = (Ok conn, w2) ->
  Invoke_Stat conn (Ticker_wait w2) = (Err err, w3) ->
  ClientConn_Close conn w3 = (e1, w4) ->
  Process_Signal process syscall.SIGTERM w4 = (e2, w5) ->
  exists joined,
    Use path h =
      (Returns (None, Some joined),
       {| log := log h ++
            [ {| what := CallStart path [path; socket]; failed := None |};
              {| what := CallDial target; failed := None |};
              {| what := CallWait; failed := None |};
              {| what := CallStat; failed := Some err |};
              {| what := CallConnClose (grpc.Target conn); failed := e1 |};
              {| what := CallSignal (os.Pid process) syscall.SIGTERM;
                 failed := e2 |} ];
          world := w5 |}) /\
    errors.occurs err joined /\
    (forall e, e1 = Some e -> errors.occurs e joined) /\
    (forall e, e2 = Some e -> errors.occurs e joined).
Proof.
  intros socket target Hstart Hdial Hstat Hclose Hsignal.
  rewrite Use_cases. cbv zeta. fold socket target.
  rewrite Hstart. cbn [fst snd error_of]. rewrite Hdial. cbn [fst snd error_of].
  rewrite Hstat. cbn [fst snd error_of]. rewrite Hclose. cbn [fst snd].
  rewrite Hsignal. cbn [fst snd app].
  destruct e1 as [c1|], e2 as [c2|]; eexists; (split; [reflexivity|]);
    (split; [cbn; auto 6 using occurs_refl|]);
    split; intros e ?; simplify_eq; cbn; auto 8 using occurs_refl.
Qed.

(** X4 on a subprocess that never serves and a cleanup whose two calls
    fail. *)
Lemma Use_Stat_failure_keeps_every_error_witness :
  exists joined,
    fixtures.scripted_Use "./test_plugin" (fixtures.start fixtures.unserved) =
      (Returns (None, Some joined),
       {| log := [] ++
            [ {| what := CallStart "./test_plugin"
                           ["./test_plugin"; "d0a1b2c3"];
                 failed := None |};
              {| what := CallDial "unix:///tmp/d0a1b2c3.sock";
                 failed := None |};
              {| what := CallWait; failed := None |};
              {| what := CallStat;
                 failed :=
                   Some (statusError Unavailable "connection refused") |};
              {| what := CallConnClose "unix:///tmp/d0a1b2c3.sock";
                 failed :=
                   Some (opaqueError "grpc"
                           "the client connection is closing") |};
              {| what := CallSignal 4242 syscall.SIGTERM;
                 failed :=
                   Some (opaqueError "os" "process already finished") |} ];
          world := fixtures.unserved |}) /\
    errors.occurs (statusError Unavailable "connection refused") joined /\
    (forall e,
        Some (opaqueError "grpc" "the client connection is closing") = Some e ->
        errors.occurs e joined) /\
    (forall e,
        Some (opaqueError "os" "process already finished") = Some e ->
        errors.occurs e joined).
Proof.
  refine (Use_Stat_failure_keeps_every_error
            (H := fixtures.ascii_Fmt) (World0 := fixtures.scripted_World)
            "./test_plugin" (fixtures.start fixtures.unserved)
            {| os.Pid := 4242 |} fixtures.unserved
            {| grpc.Target := "unix:///tmp/d0a1b2c3.sock" |} fixtures.unserved
            (statusError Unavailable "connection refused") fixtures.unserved
            _ fixtures.unserved _ fixtures.unserved
            eq_refl eq_refl eq_refl eq_refl eq_refl).
Defined.

(** X5. The handshake against a plugin whose server state was built by
    [startPlugin]: when the binary starts, the dial succeeds and Stat is
    answered by that server, [Use] returns a handle exactly when the
    configured name is the base name of the path; the handle then reports
    the configured name, the version and the names of the configured
    commands in configuration order. Otherwise [Use] returns an error that
    wraps [ErrUnexpectedName]. *)
Theorem Use_reports_startPlugin `{Fmt} {W : Type} `{!World W} {S : Type}
    (config : Config.t S) (version path : string) (h : host W)
    process w1 conn w2 w3 :
  let socket := fst (xid_New (world h)) in
  let target := "unix:///tmp/" +:+ socket +:+ ".sock" in
  Cmd_Start path [path; socket] (snd (xid_New (world h))) = (Ok process, w1) ->
  grpc_NewClient target w1 = (Ok conn, w2) ->
  Invoke_Stat conn (Ticker_wait w2) =
    (fst (API.Stat (startPlugin config version)), w3) ->
  exists handle err h',
    Use path h = (Returns (handle, err), h') /\
    (Config.Name config = filepath.Base path ->
     err = None /\
     exists p,
       handle = Some p /\
       Plugin.Name p = Config.Name config /\
       Plugin.Version p = version /\
       Plugin.Commands p = CommandHandler.Name <$> Config.Commands config) /\
    (Config.Name config <> filepath.Base path ->
     handle = None /\
     exists e, err = Some e /\ errors.Is e ErrUnexpectedName = true).
Proof.
  intros socket target Hstart Hdial Hstat.
  rewrite (Use_handshake path h _ _ _ _ _ _ Hstart Hdial Hstat).
  unfold API.Stat. cbn [fst]. rewrite startPlugin_info.
  cbn [Info.Name Info.Version Info.Commands pb.Name pb.Version pb.Commands].
  destruct (decide (Config.Name config ≠ filepath.Base path)) as [Hne|Heq];
    eexists _, _, _; (split; [reflexivity|]).
  - split; [intros Heq; contradiction|].
    intros _. split; [reflexivity|]. eexists. split; reflexivity.
  - split; [|intros Hne; contradiction].
    intros _. split; [reflexivity|]. eexists. repeat split.
Qed.

(** X5 on the test plugin, started from a path whose base name is the
    configured name and from one whose base name is not. *)
Lemma Use_reports_startPlugin_witness :
  (exists p h',
     fixtures.loopback_Use "./test_plugin"
       {| log := []; world := (startPlugin fixtures.test_plugin "v1", 0) |} =
       (Returns (Some p, None), h') /\
     Plugin.Name p = "test_plugin" /\
     Plugin.Version p = "v1" /\
     Plugin.Commands p = ["pingpong"; "echo"]) /\
  (exists e h',
     fixtures.loopback_Use "/tmp/bar"
       {| log := []; world := (startPlugin fixtures.test_plugin "v1", 0) |} =
       (Returns (None, Some e), h') /\
     errors.Is e ErrUnexpectedName = true).
Proof.
  split.
  - destruct (Use_reports_startPlugin
                (H := fixtures.ascii_Fmt)
                (World0 := fixtures.loopback_World (H := fixtures.ascii_Fmt) nat)
                fixtures.test_plugin "v1" "./test_plugin"
                {| log := []; world := (startPlugin fixtures.test_plugin "v1", 0) |}
                {| os.Pid := 4242 |} _
                {| grpc.Target := "unix:///tmp/d0a1b2c3.sock" |} _ _
                eq_refl eq_refl eq_refl)
      as (handle & err & h' & Huse & Hsame & _).
    destruct (Hsame eq_refl) as (-> & p & -> & Hname & Hversion & Hcommands).
    exists p, h'. auto.
  - destruct (Use_reports_startPlugin
                (H := fixtures.ascii_Fmt)
                (World0 := fixtures.loopback_World (H := fixtures.ascii_Fmt) nat)
                fixtures.test_plugin "v1" "/tmp/bar"
                {| log := []; world := (startPlugin fixtures.test_plugin "v1", 0) |}
                {| os.Pid := 4242 |} _
                {| grpc.Target := "unix:///tmp/d0a1b2c3.sock" |} _ _
                eq_refl eq_refl eq_refl)
      as (handle & err & h' & Huse & _ & Hother).
    destruct Hother as (-> & e & -> & His); [vm_compute; discriminate|].
    exists e, h'. auto.
Defined.



(** ** [Plugin.Exec]: inputs that do not reach the handler *)

Section Exec_edges.
Context `{Fmt} `{Protobuf}.

Lemma API_Execute_unregistered {S : Type} (api : API.t S)
    (request : pb.ExecuteRequest) (s : S) :
  pb.GetName request <> EmptyString ->
  API.handlers api !! pb.GetName request = None ->
  API.Execute api request s =
  (Err (statusError NotFound
          ("unknown command " +:+ strconv_Quote (pb.GetName request))),
   api, s).
Proof.
  intros Hname Hnone. unfold API.Execute, status.Error, Handler, Go in *.
  destruct (decide (pb.GetName request = EmptyString)); [contradiction|].
  rewrite Hnone. reflexivity.
Qed.

Lemma Execute_mismatch {S : Type} {Input Output : MessageType}
    (ch : Command.t (S := S) Input Output) input msg (s : S) :
  Any_UnmarshalNew input = Ok msg ->
  projT1 msg <> Input ->
  Command.Execute ch input s =
  (Err (errorString ("invalid input type for command "
                     +:+ strconv_Quote (Command.Use ch))), s).
Proof.
  intros Hnew Hne. unfold Command.Execute, mbind, Go_bind, pure_result.
  rewrite Hnew, (type_assert_other msg Hne). reflexivity.
Qed.

(** [Exec] on a channel that reaches the server, by what [API.Execute]
    returns for the request. *)
Lemma Exec_served {S : Type} {Wd : World (API.t S * S)}
    (p : Plugin.t) (c : Client.t) name (input : Message) i
    (T : MessageType) (output : Body T) (api : API.t S) (s : S) lg
    err s' :
  Server.connected ->
  Plugin.client p = Some c ->
  anypb_New input = Ok i ->
  API.Execute api {| pb.GetName := name; pb.GetInput := Some i |} s =
    (Err (statusError (status.Code err) (status.Message err)), api, s') ->
  Plugin.Exec p name input T output {| log := lg; world := (api, s) |} =
  (Returns
     (if decide (status.Code err = NotFound) then
        Some (wrapError ("unknown command: " +:+ strconv_Quote name)
                (sentinelError ErrUnknownCommand))
      else Some (errorString (status.Message err)), output),
   {| log := lg ++ [ {| what := CallExecute name;
                        failed := Some (statusError (status.Code err)
                                          (status.Message err)) |} ];
      world := (api, s') |}).
Proof.
  intros Hconn Hc Hnew Hapi.
  erewrite Exec_unfold
    by (rewrite Hc; apply Client_Execute_sent; exact Hnew).
  unfold after_Execute. rewrite Hconn. unfold Server.deliver.
  cbn [world log fst snd]. rewrite Hapi.
  cbn [fst snd Server.on_the_wire status.FromError status.Code status.Message
         status.CodeOf error_of].
  destruct (decide (status.Code err = NotFound)); reflexivity.
Qed.

End Exec_edges.

(** X7. When the input cannot be wrapped into an envelope, [Exec] returns
    an error without any call on the channel, leaves the output as it was,
    and does not panic even on a handle without a client. When the
    wrapping error carries no gRPC status, it is returned as it is. *)
Theorem Exec_unwrappable_input `{Fmt} `{Protobuf} {W : Type} `{!World W}
    (p : Plugin.t) (name : string) (input : Message)
    (T : MessageType) (output : Body T) (h : host W) (err : error) :
  anypb_New input = Err err ->
  exists e,
    Plugin.Exec p name input T output h = (Returns (Some e, output), h) /\
    (status.wrapped err = None -> e = err).
Proof.
  intros Hnew.
  assert (Hclient : Client.Execute (Plugin.client p) name input T output h =
                    (Returns (Some err, output), h)).
  { unfold Client.Execute. rewrite Hnew. reflexivity. }
  rewrite (Exec_unfold p name input T output h _ _ Hclient). cbn [fst snd].
  destruct (decide (status.CodeOf (Some err) = NotFound)) as [Hcode|Hcode].
  - eexists. split; [reflexivity|]. intros Hnone. exfalso.
    revert Hcode. unfold status.CodeOf, status.FromError.
    destruct err; cbn in Hnone |- *; try rewrite Hnone; cbn;
      discriminate.
  - destruct (status.FromError (Some err)) as [[st|] [|]] eqn:Hfrom;
      eexists; (split; [reflexivity|]); try reflexivity.
    intros Hnone. exfalso. revert Hfrom. unfold status.FromError.
    destruct err; cbn in Hnone |- *; try rewrite Hnone; discriminate.
Qed.

(** X7 on a StringValue that is not UTF-8, sent on a handle without a
    client. *)
Lemma Exec_unwrappable_input_witness :
  exists e,
    @Plugin.Exec fixtures.ascii_Fmt fixtures.strict_Protobuf
      fixtures.script fixtures.scripted_World
      fixtures.clientless_handle "pingpong"
      (existT fixtures.StringValue fixtures.invalid_text)
      fixtures.StringValue EmptyString (fixtures.start fixtures.healthy) =
    (Returns (Some e, EmptyString), fixtures.start fixtures.healthy) /\
    (status.wrapped (errorString "string field contains invalid UTF-8") = None ->
     e = errorString "string field contains invalid UTF-8").
Proof.
  refine (Exec_unwrappable_input
            (H := fixtures.ascii_Fmt) (H0 := fixtures.strict_Protobuf)
            (World0 := fixtures.scripted_World)
            fixtures.clientless_handle "pingpong"
            (existT fixtures.StringValue fixtures.invalid_text)
            fixtures.StringValue EmptyString (fixtures.start fixtures.healthy)
            (errorString "string field contains invalid UTF-8") eq_refl).
Defined.

(** X8. [Exec] neither hides nor invents a failure: it returns nil exactly
    when [Client.Execute] does, leaves in the output what [Client.Execute]
    left there, and makes no call of its own. *)
Theorem Exec_error_iff_Client_error `{Fmt} `{Protobuf} {W : Type} `{!World W}
    (p : Plugin.t) (name : string) (input : Message)
    (T : MessageType) (output : Body T) (h h' : host W)
    (r : option error * Body T) :
  Client.Execute (Plugin.client p) name input T output h = (Returns r, h') ->
  exists e,
    Plugin.Exec p name input T output h = (Returns (e, snd r), h') /\
    (e = None <-> fst r = None).
Proof.
  intros Hclient.
  rewrite (Exec_unfold p name input T output h _ _ Hclient).
  destruct (fst r) as [err|].
  - destruct (decide (status.CodeOf (Some err) = NotFound));
      [eexists; split; [reflexivity|split; discriminate]|].
    destruct (status.FromError (Some err)) as [[st|] [|]];
      eexists; (split; [reflexivity|split; discriminate]).
  - cbn [status.CodeOf].
    destruct (decide (OK = NotFound)); [discriminate|].
    eexists. split; [reflexivity|split; reflexivity].
Qed.

(** X8 on a channel that answers pong, and on one that fails with the
    status Unavailable. *)
Lemma Exec_error_iff_Client_error_witness :
  (exists e,
     fixtures.scripted_Exec fixtures.connected_handle "pingpong"
       (fixtures.string_message "ping") fixtures.StringValue EmptyString
       (fixtures.start (fixtures.replying
          (Ok {| pb.Output := Some (fixtures.any_string "pong") |}))) =
     (Returns (e, "pong"),
      after_Execute (World0 := fixtures.scripted_World) fixtures.the_client
        "pingpong" (fixtures.any_string "ping")
        (fixtures.start (fixtures.replying
           (Ok {| pb.Output := Some (fixtures.any_string "pong") |})))) /\
     (e = None <-> @None error = None)) /\
  (exists e,
     fixtures.scripted_Exec fixtures.connected_handle "pingpong"
       (fixtures.string_message "ping") fixtures.StringValue EmptyString
       (fixtures.start (fixtures.replying
          (Err (statusError Unavailable "connection refused")))) =
     (Returns (e, EmptyString),
      after_Execute (World0 := fixtures.scripted_World) fixtures.the_client
        "pingpong" (fixtures.any_string "ping")
        (fixtures.start (fixtures.replying
           (Err (statusError Unavailable "connection refused"))))) /\
     (e = None <->
      Some (statusError Unavailable "connection refused") = None)).
Proof.
  split.
  - refine (Exec_error_iff_Client_error
              (H := fixtures.ascii_Fmt) (H0 := fixtures.wellknown_Protobuf)
              (World0 := fixtures.scripted_World)
              fixtures.connected_handle "pingpong"
              (fixtures.string_message "ping") fixtures.StringValue EmptyString
              (fixtures.start (fixtures.replying
                 (Ok {| pb.Output := Some (fixtures.any_string "pong") |})))
              (after_Execute (World0 := fixtures.scripted_World)
                 fixtures.the_client "pingpong" (fixtures.any_string "ping")
                 (fixtures.start (fixtures.replying
                    (Ok {| pb.Output :=
                             Some (fixtures.any_string "pong") |}))))
              (None, "pong") eq_refl).
  - refine (Exec_error_iff_Client_error
              (H := fixtures.ascii_Fmt) (H0 := fixtures.wellknown_Protobuf)
              (World0 := fixtures.scripted_World)
              fixtures.connected_handle "pingpong"
              (fixtures.string_message "ping") fixtures.StringValue EmptyString
              (fixtures.start (fixtures.replying
                 (Err (statusError Unavailable "connection refused"))))
              (after_Execute (World0 := fixtures.scripted_World)
                 fixtures.the_client "pingpong" (fixtures.any_string "ping")
                 (fixtures.start (fixtures.replying
                    (Err (statusError Unavailable "connection refused")))))
              (Some (statusError Unavailable "connection refused"),
               EmptyString) eq_refl).
Defined.

(** X9. On a channel that reaches the server, [Exec] with a name that is
    not empty and not in the registry returns an error that wraps
    [ErrUnknownCommand] and carries the quoted name, whatever the input is
    (as long as it wraps into an envelope); the output and the server,
    with its handler state, are left as they were. *)
Theorem Exec_unknown_command
    `{Fmt} `{Protobuf} {S : Type} {Wd : World (API.t S * S)}
    (p : Plugin.t) (c : Client.t) (name : string) (input : Message) (i : Any)
    (T : MessageType) (output : Body T) (api : API.t S) (s : S)
    (lg : list event) :
  Server.connected ->
  Plugin.client p = Some c ->
  anypb_New input = Ok i ->
  name <> EmptyString ->
  API.handlers api !! name = None ->
  exists e h',
    Plugin.Exec p name input T output {| log := lg; world := (api, s) |} =
      (Returns (Some e, output), h') /\
    errors.Is e ErrUnknownCommand = true /\
    errors.Error e = "unknown command: " +:+ strconv_Quote name /\
    world h' = (api, s).
Proof.
  intros Hconn Hc Hnew Hname Hnone.
  rewrite (Exec_served p c name input i T output api s lg
             {| status.Code := NotFound;
                status.Message := "unknown command " +:+ strconv_Quote name |}
             s Hconn Hc Hnew)
    by (apply API_Execute_unregistered; assumption).
  cbn [status.Code]. destruct (decide (NotFound = NotFound)); [|contradiction].
  eexists _, _. repeat split.
Qed.

(** X9 on the test plugin: a name it does not serve. *)
Lemma Exec_unknown_command_witness :
  exists e h',
    fixtures.loopback_Exec fixtures.connected_handle "unknown"
      (fixtures.string_message "pong") fixtures.StringValue EmptyString
      {| log := []; world := (startPlugin fixtures.test_plugin "v1", 0) |} =
      (Returns (Some e, EmptyString), h') /\
    errors.Is e ErrUnknownCommand = true /\
    errors.Error e = "unknown command: " +:+ (dquote +:+ "unknown" +:+ dquote) /\
    world h' = (startPlugin fixtures.test_plugin "v1", 0).
Proof.
  refine (Exec_unknown_command
            (H := fixtures.ascii_Fmt) (H0 := fixtures.wellknown_Protobuf)
            (Wd := fixtures.loopback_World nat)
            fixtures.connected_handle fixtures.the_client "unknown"
            (fixtures.string_message "pong") (fixtures.any_string "pong")
            fixtures.StringValue EmptyString
            (startPlugin fixtures.test_plugin "v1") 0 [] _ eq_refl eq_refl _ _).
  - intros conn request server. reflexivity.
  - discriminate.
  - vm_compute. reflexivity.
Defined.

(** X10. On a channel that reaches the server, [Exec] of a registered
    command with a message of another type than the command's input type
    returns a plain error that names the command; the handler is not
    called (its state is the one before), and the output is left as it
    was. *)
Theorem Exec_wrong_input_type
    `{Fmt} `{Protobuf} {S : Type} {Wd : World (API.t S * S)}
    {Input Output : MessageType}
    (ch : Command.t (S := S) Input Output) (api : API.t S)
    (p : Plugin.t) (c : Client.t)
    (Sent : MessageType) (v : Body Sent)
    (T : MessageType) (output : Body T) (s : S) (lg : list event) :
  Server.connected ->
  Plugin.client p = Some c ->
  lossless Sent ->
  Sent <> Input ->
  Command.Use ch <> EmptyString ->
  API.handlers api !! Command.Use ch = Some (Command.Execute ch) ->
  exists h',
    Plugin.Exec p (Command.Use ch) (message v) T output
      {| log := lg; world := (api, s) |} =
      (Returns (Some (errorString ("invalid input type for command "
                                   +:+ strconv_Quote (Command.Use ch))),
                output), h') /\
    world h' = (api, s).
Proof.
  intros Hconn Hc Hsent Hne Hname Hreg.
  destruct (Hsent v) as (a & Hnew & Hun & _).
  rewrite (Exec_served p c (Command.Use ch) (message v) a T output api s lg
             {| status.Code := Internal;
                status.Message := "invalid input type for command "
                                  +:+ strconv_Quote (Command.Use ch) |}
             s Hconn Hc Hnew).
  - cbn [status.Code status.Message].
    destruct (decide (Internal = NotFound)); [discriminate|].
    eexists. split; reflexivity.
  - rewrite (API_Execute_registered api
               {| pb.GetName := Command.Use ch; pb.GetInput := Some a |}
               s _ Hname Hreg).
    cbn zeta. cbn [pb.GetInput].
    rewrite (Execute_mismatch ch (Some a) (message v) s Hun Hne).
    reflexivity.
Qed.

(** X10 on the test plugin: a Duration sent to pingpong, as in the test
    of the invalid input type. The state still counts no call. *)
Lemma Exec_wrong_input_type_witness :
  exists h',
    fixtures.loopback_Exec fixtures.connected_handle "pingpong"
      (fixtures.duration_message 3600) fixtures.StringValue EmptyString
      {| log := []; world := (startPlugin fixtures.test_plugin "v1", 0) |} =
      (Returns (Some (errorString ("invalid input type for command "
                                   +:+ (dquote +:+ "pingpong" +:+ dquote))),
                EmptyString), h') /\
    world h' = (startPlugin fixtures.test_plugin "v1", 0).
Proof.
  refine (Exec_wrong_input_type
            (H := fixtures.ascii_Fmt) (H0 := fixtures.wellknown_Protobuf)
            (Wd := fixtures.loopback_World nat)
            fixtures.PingPong (startPlugin fixtures.test_plugin "v1")
            fixtures.connected_handle fixtures.the_client
            fixtures.Duration 3600 fixtures.StringValue EmptyString 0 []
            _ eq_refl (wellknown_lossless fixtures.Duration) _ _ _).
  - intros conn request server. reflexivity.
  - discriminate.
  - discriminate.
  - vm_compute. reflexivity.
Defined.

(** X11. On a channel that reaches the server, whatever error a
    registered handler returns, be it the package's [ErrUnknownCommand]
    or a gRPC NotFound status of its own, [Exec] returns a plain error
    holding only its text: a handler's failure is never reported as an
    unknown command. The handler state is the one the handler left. *)
Theorem Exec_handler_error_is_plain
    `{Fmt} `{Protobuf} {S : Type} {Wd : World (API.t S * S)}
    (p : Plugin.t) (c : Client.t) (name : string) (input : Message) (i : Any)
    (T : MessageType) (output : Body T) (api : API.t S)
    (handler : Handler S) (err : error) (s s' : S) (lg : list event) :
  Server.connected ->
  Plugin.client p = Some c ->
  anypb_New input = Ok i ->
  name <> EmptyString ->
  API.handlers api !! name = Some handler ->
  handler (Some i) s = (Err err, s') ->
  exists h',
    Plugin.Exec p name input T output {| log := lg; world := (api, s) |} =
      (Returns (Some (errorString (errors.Error err)), output), h') /\
    errors.Is (errorString (errors.Error err)) ErrUnknownCommand = false /\
    world h' = (api, s').
Proof.
  intros Hconn Hc Hnew Hname Hreg Hrun.
  rewrite (Exec_served p c name input i T output api s lg
             {| status.Code := Internal;
                status.Message := errors.Error err |}
             s' Hconn Hc Hnew).
  - cbn [status.Code status.Message].
    destruct (decide (Internal = NotFound)); [discriminate|].
    eexists. repeat split.
  - rewrite (API_Execute_registered api
               {| pb.GetName := name; pb.GetInput := Some i |}
               s _ Hname Hreg).
    cbn zeta. cbn [pb.GetInput]. rewrite Hrun. reflexivity.
Qed.

(** X11 on a handler that fails with a NotFound status and on one that
    fails with [ErrUnknownCommand] itself. *)
Lemma Exec_handler_error_is_plain_witness :
  (exists h',
     fixtures.loopback_Exec fixtures.connected_handle "lookup"
       (fixtures.string_message "key") fixtures.StringValue EmptyString
       {| log := []; world := (startPlugin fixtures.impostor_plugin "v1", 0) |} =
       (Returns (Some (errorString
                         (errors.Error
                            (statusError NotFound "no such record"))),
                 EmptyString), h') /\
     errors.Is (errorString
                  (errors.Error (statusError NotFound "no such record")))
       ErrUnknownCommand = false /\
     world h' = (startPlugin fixtures.impostor_plugin "v1", 1)) /\
  (exists h',
     fixtures.loopback_Exec fixtures.connected_handle "fetch"
       (fixtures.string_message "key") fixtures.StringValue EmptyString
       {| log := []; world := (startPlugin fixtures.impostor_plugin "v1", 0) |} =
       (Returns (Some (errorString
                         (errors.Error (sentinelError ErrUnknownCommand))),
                 EmptyString), h') /\
     errors.Is (errorString (errors.Error (sentinelError ErrUnknownCommand)))
       ErrUnknownCommand = false /\
     world h' = (startPlugin fixtures.impostor_plugin "v1", 1)).
Proof.
  split.
  - refine (Exec_handler_error_is_plain
              (H := fixtures.ascii_Fmt) (H0 := fixtures.wellknown_Protobuf)
              (Wd := fixtures.loopback_World nat)
              fixtures.connected_handle fixtures.the_client "lookup"
              (fixtures.string_message "key") (fixtures.any_string "key")
              fixtures.StringValue EmptyString
              (startPlugin fixtures.impostor_plugin "v1")
              fixtures.not_found_handler
              (statusError NotFound "no such record") 0 1 []
              _ eq_refl eq_refl _ _ eq_refl).
    + intros conn request server. reflexivity.
    + discriminate.
    + vm_compute. reflexivity.
  - refine (Exec_handler_error_is_plain
              (H := fixtures.ascii_Fmt) (H0 := fixtures.wellknown_Protobuf)
              (Wd := fixtures.loopback_World nat)
              fixtures.connected_handle fixtures.the_client "fetch"
              (fixtures.string_message "key") (fixtures.any_string "key")
              fixtures.StringValue EmptyString
              (startPlugin fixtures.impostor_plugin "v1")
              fixtures.sentinel_handler
              (sentinelError ErrUnknownCommand) 0 1 []
              _ eq_refl eq_refl _ _ eq_refl).
    + intros conn request server. reflexivity.
    + discriminate.
    + vm_compute. reflexivity.
Defined.

(** ** The server built by [startPlugin] *)

Section dispatch.
Context {S : Type}.
Implicit Types (cmds : list (CommandHandler.t S)).

(** With pairwise distinct names, a descriptor is the only one of its
    name. *)
Lemma named_unique cmds c :
  NoDup (CommandHandler.Name <$> cmds) ->
  c ∈ cmds ->
  named (CommandHandler.Name c) cmds = [c].
Proof.
  unfold named. induction cmds as [|d cmds IH]; intros Hdup Hin.
  - inversion Hin.
  - rewrite fmap_cons in Hdup. apply NoDup_cons in Hdup as [Hfresh Hdup].
    rewrite filter_cons. apply elem_of_cons in Hin as [->|Hin].
    + destruct (decide _) as [_|Hne]; [|contradiction]. f_equal.
      destruct (filter _ cmds) as [|e rest] eqn:Hfilter; [reflexivity|].
      assert (He : e ∈ filter (fun c => CommandHandler.Name c
                                         = CommandHandler.Name d) cmds)
        by (rewrite Hfilter; left).
      apply list_elem_of_filter in He as [Hname He].
      exfalso. apply Hfresh. rewrite <- Hname.
      apply list_elem_of_fmap. eauto.
    + destruct (decide _) as [Heq|_]; [|auto].
      exfalso. apply Hfresh. rewrite Heq.
      apply list_elem_of_fmap. eauto.
Qed.

(** A name is in the registry exactly when a descriptor bears it. *)
Lemma startPlugin_lookup_None (config : Config.t S) version n :
  API.handlers (startPlugin config version) !! n = None <->
  n ∉ CommandHandler.Name <$> Config.Commands config.
Proof.
  rewrite startPlugin_lookup, fmap_None, last_None. unfold named. split.
  - intros Hnil [c [-> Hin]]%list_elem_of_fmap.
    eapply filter_nil_not_elem_of; [exact Hnil| |exact Hin]. reflexivity.
  - intros Hnot.
    destruct (filter _ _) as [|c rest] eqn:Hfilter; [reflexivity|].
    assert (Hc : c ∈ filter (fun c => CommandHandler.Name c = n)
                       (Config.Commands config))
      by (rewrite Hfilter; left).
    apply list_elem_of_filter in Hc as [<- Hc].
    exfalso. apply Hnot. apply list_elem_of_fmap. eauto.
Qed.

End dispatch.

(** X12. When the configured commands have pairwise distinct names, the
    server built by [startPlugin] runs, for a request that names a
    configured command with a name that is not empty, the [Execute] of that
    very command on the request's envelope: its envelope is the response,
    its error becomes an Internal status with the error's text, and its
    state change is the only one. *)
Theorem startPlugin_dispatches
    `{Fmt} {S : Type} (config : Config.t S) (version : string)
    (command : CommandHandler.t S) (input : option Any) (s : S) :
  NoDup (CommandHandler.Name <$> Config.Commands config) ->
  command ∈ Config.Commands config ->
  CommandHandler.Name command <> EmptyString ->
  let api := startPlugin config version in
  let ran := CommandHandler.Execute command input s in
  API.Execute api
    {| pb.GetName := CommandHandler.Name command; pb.GetInput := input |} s =
  (match fst ran with
   | Ok output => Ok {| pb.Output := output |}
   | Err err => Err (statusError Internal (errors.Error err))
   end, api, snd ran).
Proof.
  intros Hdup Hin Hname api ran. subst api ran.
  rewrite (API_Execute_registered _
             {| pb.GetName := CommandHandler.Name command;
                pb.GetInput := input |} s
             (CommandHandler.Execute command) Hname).
  - cbn zeta. cbn [pb.GetInput].
    destruct (fst (CommandHandler.Execute command input s)); reflexivity.
  - cbn [pb.GetName]. rewrite startPlugin_lookup.
    rewrite (named_unique _ _ Hdup Hin). reflexivity.
Qed.

(** X12 on the test plugin: ping sent to pingpong. *)
Lemma startPlugin_dispatches_witness :
  API.Execute (H := fixtures.ascii_Fmt)
    (startPlugin fixtures.test_plugin "v1")
    {| pb.GetName := "pingpong";
       pb.GetInput := Some (fixtures.any_string "ping") |} 0 =
  (Ok {| pb.Output := Some (fixtures.any_string "pong") |},
   startPlugin fixtures.test_plugin "v1", 1).
Proof.
  refine (startPlugin_dispatches (H := fixtures.ascii_Fmt)
            fixtures.test_plugin "v1"
            (Command.handler (H := fixtures.ascii_Fmt) fixtures.PingPong)
            (Some (fixtures.any_string "ping")) 0 _ _ _).
  - change (NoDup ["pingpong"; "echo"]).
    apply NoDup_cons. split; [|apply NoDup_singleton].
    intros Hin. apply list_elem_of_singleton in Hin. discriminate Hin.
  - apply list_elem_of_here.
  - discriminate.
Defined.

(** X13. For the server built by [startPlugin] from any configuration:
    the names Stat reports are exactly the names in the registry, and
    Execute fails with the status NotFound exactly for the names that are
    not empty and that Stat does not report. *)
Theorem Execute_NotFound_iff_unlisted
    `{Fmt} {S : Type} (config : Config.t S) (version : string) :
  let api := startPlugin config version in
  exists reply,
    fst (API.Stat api) = Ok reply /\
    (forall n, n ∈ pb.Commands reply <-> is_Some (API.handlers api !! n)) /\
    (forall request s,
        (exists msg,
            fst (fst (API.Execute api request s)) =
            Err (statusError NotFound msg)) <->
        pb.GetName request <> EmptyString /\
        pb.GetName request ∉ pb.Commands reply).
Proof.
  intros api. subst api. eexists. split; [reflexivity|].
  cbn [pb.Commands]. rewrite startPlugin_info. cbn [Info.Commands].
  split.
  - intros n. rewrite <- not_eq_None_Some, startPlugin_lookup_None.
    split; [auto|]. intros Hnn.
    destruct (decide (n ∈ CommandHandler.Name <$> Config.Commands config));
      [assumption|contradiction].
  - intros request s. rewrite <- (startPlugin_lookup_None config version).
    unfold API.Execute, status.Error, Handler, Go in *.
    destruct (decide (pb.GetName request = EmptyString)) as [Hempty|Hname].
    + split; [intros [msg [=]]|intros [Hne _]; contradiction].
    + match goal with
      | |- context [@lookup ?K ?A ?M ?L ?k ?m] =>
          destruct (@lookup K A M L k m) as [handler|]
      end.
      * split; [|intros [_ [=]]].
        destruct (handler (pb.GetInput request) s) as [[output|err] s'];
          intros [msg [=]].
      * split; [auto|]. intros _. eexists. reflexivity.
Qed.

(** X14. [API.Execute] fails only with a gRPC status, and only with one
    of the codes InvalidArgument, NotFound and Internal: every error it
    returns already carries a status, so none reaches the host as Unknown
    or as the Unimplemented of the embedded server. It returns a response
    only for a name that is not empty and is in the registry. *)
Theorem API_Execute_codes
    `{Fmt} {S : Type} (api : API.t S) (request : pb.ExecuteRequest) (s : S) :
  match fst (fst (API.Execute api request s)) with
  | Err err =>
      snd (status.FromError (Some err)) = true /\
      (status.CodeOf (Some err) = InvalidArgument \/
       status.CodeOf (Some err) = NotFound \/
       status.CodeOf (Some err) = Internal)
  | Ok _ =>
      pb.GetName request <> EmptyString /\
      is_Some (API.handlers api !! pb.GetName request)
  end.
Proof.
  destruct (decide (pb.GetName request = EmptyString)) as [Hempty|Hname].
  - unfold API.Execute.
    destruct (decide (pb.GetName request = EmptyString)); [|contradiction].
    cbn. auto.
  - destruct (API.handlers api !! pb.GetName request) as [handler|] eqn:Hfound.
    + rewrite (API_Execute_registered api request s handler Hname Hfound).
      cbn zeta. cbn [fst].
      destruct (fst (handler (pb.GetInput request) s)); cbn; eauto.
    + rewrite (API_Execute_unregistered api request s Hname Hfound).
      cbn. auto.
Qed.

(** ** The adapter and the test plugin *)

Lemma type_assert_Some `{Protobuf} (Input : MessageType) (m : Message)
    (v : Body Input) :
  type_assert Input m = Some v -> m = message v.
Proof.
  destruct m as [t b]. unfold type_assert, message. cbn [projT1 projT2].
  destruct (decide (t = Input)) as [e|]; [|discriminate].
  destruct e. cbn. intros [= ->]. reflexivity.
Qed.

(** X15. [Command.Execute] succeeds only when the envelope decodes to a
    value of the input type, the handler succeeds on that value and its
    result wraps into an envelope; what it returns is then that envelope,
    never nil, and the state is the one the handler left. *)
Theorem Command_Execute_success
    `{Fmt} `{Protobuf} {S : Type} {Input Output : MessageType}
    (ch : Command.t (S := S) Input Output) (input out : option Any)
    (s s' : S) :
  Command.Execute ch input s = (Ok out, s') ->
  exists v produced a,
    Any_UnmarshalNew input = Ok (message v) /\
    Command.Run ch v s = (Ok produced, s') /\
    anypb_New (message produced) = Ok a /\
    out = Some a.
Proof.
  unfold Command.Execute, mbind, Go_bind, pure_result, mret, Go_ret.
  destruct (Any_UnmarshalNew input) as [msg|]; [|discriminate].
  destruct (type_assert Input msg) as [v|] eqn:Hassert; [|discriminate].
  apply type_assert_Some in Hassert as ->.
  destruct (Command.Run ch v s) as [[produced|] s1] eqn:Hrun; [|discriminate].
  destruct (anypb_New (message produced)) as [a|] eqn:Hwrap; [|discriminate].
  intros [= <- <-]. exists v, produced, a. auto.
Qed.

(** X15 on the command of the test plugin, sent ping. *)
Lemma Command_Execute_success_witness :
  exists v produced a,
    Any_UnmarshalNew (Protobuf := fixtures.wellknown_Protobuf)
      (Some (fixtures.any_string "ping")) = Ok (fixtures.string_message v) /\
    Command.Run fixtures.PingPong v 0 = (Ok produced, 1) /\
    anypb_New (Protobuf := fixtures.wellknown_Protobuf)
      (fixtures.string_message produced) = Ok a /\
    Some (fixtures.any_string "pong") = Some a.
Proof.
  refine (Command_Execute_success
            (H := fixtures.ascii_Fmt) (H0 := fixtures.wellknown_Protobuf)
            fixtures.PingPong (Some (fixtures.any_string "ping"))
            (Some (fixtures.any_string "pong")) 0 1 eq_refl).
Defined.

(** X16. The handler of the test plugin accepts exactly ping and pong,
    and on them it is its own inverse: applied to what it returned, it
    returns the input it was given. *)
Theorem PingPong_is_an_involution (input : string) (calls : nat) :
  match fst (fixtures.PingPong_Run input calls) with
  | Ok out =>
      (input = "ping" \/ input = "pong") /\
      forall later, fst (fixtures.PingPong_Run out later) = Ok input
  | Err _ => input <> "ping" /\ input <> "pong"
  end.
Proof.
  unfold fixtures.PingPong_Run. cbn [fst].
  destruct (decide (input = "ping")) as [->|Hping];
    [split; [auto|reflexivity]|].
  destruct (decide (input = "pong")) as [->|Hpong];
    [split; [auto|reflexivity]|].
  auto.
Qed.
